(** * Book-tracking service: ownership-scoped CRUD and the identity resolver

    A shallow embedding of [core/crud/book.py], [core/crud/user.py],
    [core/routes/users.py] and [core/routes/books.py].

    - Tables are lists of rows in storage order (a new row goes last).
    - A request handler is a function from the store to a result and a
      store; an exception is the left summand of the result.
    - [passlib] and [python-jose] are third-party packages: they enter as
      the interfaces [Bcrypt] and [Jose]. *)

From Stdlib Require Import ZArith Ascii String List.
From stdpp Require Import base option list strings gmap.

Local Open Scope Z_scope.
Local Open Scope string_scope.
Local Open Scope list_scope.

(** ** Schemas ([core/schemas]) *)

(** [Literal["read", "to_read"]] and the column [Enum("read", "to_read")]. *)
Inductive BookStatus := read | to_read.

#[global] Instance BookStatus_eq_dec : EqDecision BookStatus.
Proof. solve_decision. Defined.

(** [class BookCreate(BookBase)]: the whole request body of [POST /books/]. *)
Module BookCreate.
Record t := mk { title : string; status : BookStatus }.
End BookCreate.

(** [class BookUpdate(BookBase)] with [title: Optional[str]]. *)
Module BookUpdate.
Record t := mk { title : option string; status : BookStatus }.
End BookUpdate.

(** Modelled from the spec: [core/schemas/user.py] is not among the sources.
    [UserCreate] is the registration body {username, email, password}
    (section 6); the route reads exactly these three attributes. *)
Module UserCreate.
Record t := mk { username : string; email : string; password : string }.
End UserCreate.

(** The form of [POST /users/token] ([OAuth2PasswordRequestForm]). *)
Module LoginForm.
Record t := mk { username : string; password : string }.
End LoginForm.

(** ** Models ([core/models]) *)

Module Book.
Record t := mk { id : Z; title : string; author_id : Z; status : BookStatus }.

#[global] Instance eq_dec : EqDecision t.
Proof. solve_decision. Defined.

(** Attribute assignment on a mapped object. *)
Definition set_title (new_title : string) (b : t) : t :=
  mk (id b) new_title (author_id b) (status b).
Definition set_status (new_status : BookStatus) (b : t) : t :=
  mk (id b) (title b) (author_id b) new_status.
End Book.

(** Modelled from the spec: [core/models/user.py] is not among the sources.
    Section 6 gives the table as Users(id, username UNIQUE, email UNIQUE,
    password_hash); [crud/user.py] names the last column [hashed_password]. *)
Module User.
Record t := mk { id : Z; username : string; email : string;
                 hashed_password : string }.

#[global] Instance eq_dec : EqDecision t.
Proof. solve_decision. Defined.
End User.

(** ** The store *)

Record Db := mkDb { users : list User.t; books : list Book.t }.

(** An integer primary key without a value gets one more than the largest
    key in the table, and 1 in an empty table. *)
Definition next_id (ids : list Z) : Z := 1 + foldr Z.max 0 ids.

(** The integers that the SQLite driver binds as a parameter: signed, 64
    bits.  Python ints are unbounded and the routes pass book ids, offsets
    and limits on unchecked; with a parameter outside this range the driver
    raises [OverflowError] and no query runs.  The queries below are
    modelled for parameters in the range, and the properties that take an
    id, an offset or a limit from a request say so. *)
Definition int64 (n : Z) : Prop := - 2 ^ 63 <= n < 2 ^ 63.

#[global] Instance int64_dec n : Decision (int64 n).
Proof. unfold int64. apply _. Defined.

(** [Query.offset(n)] and [Query.limit(n)] on a result list, for [n] in
    [int64].  The arguments may be negative: a negative offset skips
    nothing and a negative limit does not bound the result (the reading of
    SQLite, which the test module binds). *)
Definition sql_offset {A} (n : Z) (rows : list A) : list A :=
  drop (Z.to_nat n) rows.

Definition sql_limit {A} (n : Z) (rows : list A) : list A :=
  if decide (n < 0) then rows else take (Z.to_nat n) rows.

(** ** Exceptions *)

Module HTTPException.
Record t := mk { status_code : Z; detail : string;
                 headers : gmap string string }.

#[global] Instance eq_dec : EqDecision t.
Proof. solve_decision. Defined.
End HTTPException.

Inductive error :=
  | Http (e : HTTPException.t)   (* raised by a route, rendered by FastAPI *)
  | IntegrityError               (* a UNIQUE constraint failed at commit *)
  | UnknownHashError             (* passlib: hash could not be identified *)
  | PasswordValueError           (* passlib: password that bcrypt cannot take *)
  | HandlerError (msg : string). (* raised inside the bcrypt handler *)

#[global] Instance error_eq_dec : EqDecision error.
Proof. solve_decision. Defined.

(** A request: reads and writes the store, returns or raises. *)
Definition Req (A : Type) : Type := Db -> (error + A) * Db.

Definition ret {A} (a : A) : Req A := fun db => (inr a, db).
Definition raise {A} (e : error) : Req A := fun db => (inl e, db).
Definition bind {A B} (m : Req A) (k : A -> Req B) : Req B :=
  fun db => match m db with
            | (inr a, db') => k a db'
            | (inl e, db') => (inl e, db')
            end.
Definition query {A} (q : Db -> A) : Req A := fun db => (inr (q db), db).

#[global] Instance Req_ret : MRet Req := @ret.
#[global] Instance Req_bind : MBind Req := fun A B k m => bind m k.
#[global] Instance Req_fmap : FMap Req :=
  fun A B f m => bind m (fun a => ret (f a)).

(** Python truthiness of an [Optional[str]]: [None] and [""] are false. *)
Definition truthy (s : option string) : bool :=
  match s with
  | None => false
  | Some s => negb (String.eqb s "")
  end.

(** ** [core/crud/book.py] *)

Module crud_book.

(** A [Book] built from the fields of [book.dict()] (those of [BookBase]:
    title and status) and [author_id=user_id]; then [add], [commit],
    [refresh]. *)
Definition create_book (book : BookCreate.t) (user_id : Z) : Req Book.t :=
  fun db =>
    let db_book :=
      Book.mk (next_id (Book.id <$> books db))
              (BookCreate.title book) user_id (BookCreate.status book) in
    (inr db_book, mkDb (users db) (books db ++ [db_book])).

(** The listing, for [skip] and [limit] in [int64]. *)
Definition get_books_by_user (db : Db) (user_id skip limit : Z)
  : list Book.t :=
  sql_limit limit
    (sql_offset skip
       (filter (fun b => Book.author_id b = user_id) (books db))).

(** The lookup, for [book_id] in [int64]. *)
Definition get_book (db : Db) (book_id user_id : Z) : option Book.t :=
  head (filter (fun b => Book.id b = book_id /\ Book.author_id b = user_id)
               (books db)).

(** [db.delete(db_book); db.commit()] removes the row with that key. *)
Definition delete_book (book_id user_id : Z) : Req (option Book.t) :=
  fun db =>
    let db_book := get_book db book_id user_id in
    match db_book with
    | Some b =>
        (inr db_book,
         mkDb (users db)
              (filter (fun r => Book.id r <> Book.id b) (books db)))
    | None => (inr db_book, db)
    end.

(** The two assignments of [update_book_status] on the mapped object. *)
Definition assign (book : Book.t) (book_update : BookUpdate.t) : Book.t :=
  let book :=
    match BookUpdate.title book_update with
    | Some new_title =>
        if truthy (Some new_title) then Book.set_title new_title book
        else book
    | None => book
    end in
  Book.set_status (BookUpdate.status book_update) book.

(** [db.commit()] after the assignments: the row with the object's key
    takes the assigned columns, title and status. *)
Definition commit_assigned (book : Book.t) (rows : list Book.t)
  : list Book.t :=
  (fun r => if decide (Book.id r = Book.id book)
            then Book.set_status (Book.status book)
                   (Book.set_title (Book.title book) r)
            else r) <$> rows.

(** [db.refresh(book)]: the object takes the columns of its row. *)
Definition refresh (book : Book.t) (rows : list Book.t) : Book.t :=
  default book (head (filter (fun r => Book.id r = Book.id book) rows)).

Definition update_book_status (book : Book.t) (book_update : BookUpdate.t)
  : Req Book.t :=
  fun db =>
    let book := assign book book_update in
    let rows := commit_assigned book (books db) in
    (inr (refresh book rows), mkDb (users db) rows).

End crud_book.

(** ** [core/crud/user.py] *)

Module crud_user.

Definition get_user_by_username (db : Db) (username : string)
  : option User.t :=
  head (filter (fun u => User.username u = username) (users db)).

Definition get_user_by_email (db : Db) (email : string) : option User.t :=
  head (filter (fun u => User.email u = email) (users db)).

(** Modelled from the spec: the UNIQUE constraints on [username] and
    [email] of the users table (section 6), declared in the absent
    [core/models/user.py].  [commit] raises when the new row breaks one. *)
Definition unique_violation (db : Db) (username email : string) : bool :=
  bool_decide (username ∈ User.username <$> users db)
  || bool_decide (email ∈ User.email <$> users db).

Definition create_user (user : UserCreate.t) (hashed_password : string)
  : Req User.t :=
  fun db =>
    let db_user :=
      User.mk (next_id (User.id <$> users db))
              (UserCreate.username user) (UserCreate.email user)
              hashed_password in
    if unique_violation db (UserCreate.username user) (UserCreate.email user)
    then (inl IntegrityError, db)
    else (inr db_user, mkDb (users db ++ [db_user]) (books db)).

End crud_user.

(** ** [core/config.py] *)

Module Settings.
Record t := mk { DATABASE_URL : string; SECRET_KEY : string;
                 ALGORITHM : string; ACCESS_TOKEN_EXPIRE_MINUTES : Z }.
End Settings.

(** ** Third-party interfaces *)

(** The bcrypt computation behind passlib's handler.  [bcrypt_hash] takes
    the salt it would draw as its first argument.  Both operations may
    raise. *)
Class Bcrypt := {
  bcrypt_hash : string -> string -> error + string;
  bcrypt_verify : string -> string -> error + bool
}.

(** [jose.jwt] over claim sets with string values.  [jwt_decode] gives
    [None] where the package raises [JWTError]; [jws_signature_ok] is its
    signature check of a compact token. *)
Class Jose := {
  jwt_encode : gmap string string -> string -> string -> string;
  jwt_decode : string -> string -> list string -> option (gmap string string);
  jws_signature_ok : string -> string -> string -> bool
}.

(** What the program relies on: a token issued for a subject decodes to that
    subject under the same key and algorithm, and a token whose signature
    does not check is refused. *)
Class JoseLaws `{Jose} : Prop := {
  decode_encode_sub : forall sub key alg,
    jwt_decode (jwt_encode {["sub" := sub]} key alg) key [alg]
    = Some {["sub" := sub]};
  decode_checks_signature : forall token key alg,
    jws_signature_ok token key alg = false ->
    jwt_decode token key [alg] = None
}.

(** passlib's [CryptContext]: a hash is verified by the first scheme that
    identifies it, and refused when no scheme does; new hashes use the first
    scheme. *)
Module Handler.
Record t := mk { identify : string -> bool;
                 hash : string -> string -> error + string;
                 verify : string -> string -> error + bool }.
End Handler.

Module CryptContext.
Record t := mk { schemes : list Handler.t }.

Definition verify (ctx : t) (secret hash : string) : error + bool :=
  match List.find (fun h => Handler.identify h hash) (schemes ctx) with
  | Some record => Handler.verify record secret hash
  | None => inl UnknownHashError
  end.

Definition hash (ctx : t) (salt secret : string) : error + string :=
  match schemes ctx with
  | record :: _ => Handler.hash record salt secret
  | [] => inl (HandlerError "no crypt algorithms supported")
  end.
End CryptContext.

(** The bcrypt handler recognises a hash by its identifier prefix. *)
Definition bcrypt_ident_values : list string :=
  ["$2$"; "$2a$"; "$2x$"; "$2y$"; "$2b$"].

Definition bcrypt_identify (hash : string) : bool :=
  existsb (fun ident => String.prefix ident hash) bcrypt_ident_values.

(** A NUL character in a string. *)
Fixpoint contains_nul (s : string) : bool :=
  match s with
  | EmptyString => false
  | String c s' => Ascii.eqb c Ascii.zero || contains_nul s'
  end.

(** Before it hashes, the handler refuses a password with a NUL byte. *)
Definition bcrypt `{Bcrypt} : Handler.t :=
  Handler.mk bcrypt_identify
    (fun salt secret =>
       if contains_nul secret then inl PasswordValueError
       else bcrypt_hash salt secret)
    bcrypt_verify.

(** ** Response schemas *)

(** The body of a successful [POST /users/token]. *)
Module Token.
Record t := mk { access_token : string; token_type : string }.
End Token.

(** Lifting a computation that does not touch the store. *)
Definition lift {A} (r : error + A) : Req A := fun db => (r, db).

(** ** [core/routes/users.py] *)

Module routes_users.
Section with_libraries.
Context `{Bcrypt} `{Jose} (settings : Settings.t).

Definition pwd_context : CryptContext.t := CryptContext.mk [bcrypt].

Definition verify_password (plain_password hashed_password : string)
  : error + bool :=
  CryptContext.verify pwd_context plain_password hashed_password.

Definition get_password_hash (salt password : string) : error + string :=
  CryptContext.hash pwd_context salt password.

Definition create_access_token (data : gmap string string) : string :=
  let to_encode := data in
  jwt_encode to_encode (Settings.SECRET_KEY settings)
             (Settings.ALGORITHM settings).

Definition credentials_exception : HTTPException.t :=
  HTTPException.mk 401 "Could not validate credentials"
                   {["WWW-Authenticate" := "Bearer"]}.

Definition get_current_user (token : string) (db : Db) : error + User.t :=
  match jwt_decode token (Settings.SECRET_KEY settings)
                   [Settings.ALGORITHM settings] with
  | None => inl (Http credentials_exception)          (* except JWTError *)
  | Some payload =>
      match payload !! "sub" with
      | None => inl (Http credentials_exception)      (* username is None *)
      | Some username =>
          match crud_user.get_user_by_username db username with
          | None => inl (Http credentials_exception)  (* user is None *)
          | Some user => inr user
          end
      end
  end.

Definition login_for_access_token (form_data : LoginForm.t) : Req Token.t :=
  let bad_credentials :=
    Http (HTTPException.mk 401 "Incorrect username or password"
                           {["WWW-Authenticate" := "Bearer"]}) in
  user ← query (fun db =>
            crud_user.get_user_by_username db (LoginForm.username form_data));
  match user with
  | None => raise bad_credentials
  | Some user =>
      ok ← lift (verify_password (LoginForm.password form_data)
                                 (User.hashed_password user));
      if negb ok then raise bad_credentials
      else
        let access_token :=
          create_access_token {["sub" := User.username user]} in
        mret (Token.mk access_token "bearer")
  end.

Definition create_user (salt : string) (user : UserCreate.t) : Req User.t :=
  hashed_password ← lift (get_password_hash salt (UserCreate.password user));
  db_user ← query (fun db =>
               crud_user.get_user_by_email db (UserCreate.email user));
  match db_user with
  | Some _ =>
      raise (Http (HTTPException.mk 400 "Email already registered" ∅))
  | None => crud_user.create_user user hashed_password
  end.

End with_libraries.
End routes_users.

(** ** [core/routes/books.py] *)

Module routes_books.
Section with_libraries.
Context `{Jose} (settings : Settings.t).

(** [Depends(get_current_user)]: resolved before the body of the route. *)
Definition current_user (token : string) : Req User.t :=
  fun db => (routes_users.get_current_user settings token db, db).

Definition not_found : error :=
  Http (HTTPException.mk 404 "Book not found" ∅).

Definition create_book (token : string) (book : BookCreate.t) : Req Book.t :=
  current_user ← current_user token;
  crud_book.create_book book (User.id current_user).

Definition read_books (token : string) (skip limit : Z)
  : Req (list Book.t) :=
  current_user ← current_user token;
  query (fun db =>
    crud_book.get_books_by_user db (User.id current_user) skip limit).

Definition read_book (token : string) (book_id : Z) : Req Book.t :=
  current_user ← current_user token;
  book ← query (fun db =>
            crud_book.get_book db book_id (User.id current_user));
  match book with
  | None => raise not_found
  | Some book => mret book
  end.

Definition delete_book (token : string) (book_id : Z) : Req Book.t :=
  current_user ← current_user token;
  book ← crud_book.delete_book book_id (User.id current_user);
  match book with
  | None => raise not_found
  | Some book => mret book
  end.

Definition update_book_status (token : string) (book_id : Z)
    (book_update : BookUpdate.t) : Req Book.t :=
  current_user ← current_user token;
  book ← query (fun db =>
            crud_book.get_book db book_id (User.id current_user));
  match book with
  | None => raise not_found
  | Some book => crud_book.update_book_status book book_update
  end.

End with_libraries.
End routes_books.

(** ** The application ([core/factory.py]: [setup_routes]) *)

Inductive request :=
  | POST_users (salt : string) (body : UserCreate.t)    (* POST /users/users/ *)
  | POST_token (form : LoginForm.t)                      (* POST /users/token *)
  | POST_books (token : string) (body : BookCreate.t)    (* POST /books/ *)
  | GET_books (token : string) (skip limit : Z)          (* GET /books/ *)
  | GET_book (token : string) (book_id : Z)              (* GET /books/{id} *)
  | PUT_book (token : string) (book_id : Z) (body : BookUpdate.t)
  | DELETE_book (token : string) (book_id : Z).

Inductive response :=
  | UserBody (u : User.t)
  | TokenBody (t : Token.t)
  | BookBody (b : Book.t)
  | BooksBody (bs : list Book.t).

Section app.
Context `{Bcrypt} `{Jose} (settings : Settings.t).

Definition handle (r : request) : Req response :=
  match r with
  | POST_users salt body =>
      UserBody <$> routes_users.create_user salt body
  | POST_token form =>
      TokenBody <$> routes_users.login_for_access_token settings form
  | POST_books token body =>
      BookBody <$> routes_books.create_book settings token body
  | GET_books token skip limit =>
      BooksBody <$> routes_books.read_books settings token skip limit
  | GET_book token book_id =>
      BookBody <$> routes_books.read_book settings token book_id
  | PUT_book token book_id body =>
      BookBody <$> routes_books.update_book_status settings token book_id body
  | DELETE_book token book_id =>
      BookBody <$> routes_books.delete_book settings token book_id
  end.

(** A run of the application over a sequence of requests. *)
Fixpoint run (rs : list request) (db : Db) : Db :=
  match rs with
  | [] => db
  | r :: rs => run rs (handle r db).2
  end.

(** The answers of the application to a sequence of requests. *)
Fixpoint serve (rs : list request) (db : Db) : list (error + response) :=
  match rs with
  | [] => []
  | r :: rs => (handle r db).1 :: serve rs (handle r db).2
  end.

(** The books table after a request: unchanged, or one row appended by
    [POST /books/] for the resolved user, or the columns title and status
    of one row rewritten by [PUT], or the row of one key removed by
    [DELETE]. *)
Inductive books_step (r : request) (db db' : Db) : Prop :=
| books_same : books db' = books db -> books_step r db db'
| books_created token body u :
    r = POST_books token body ->
    routes_users.get_current_user settings token db = inr u ->
    books db' = (books db ++
      [Book.mk (next_id (Book.id <$> books db)) (BookCreate.title body)
               (User.id u) (BookCreate.status body)])%list ->
    books_step r db db'
| books_updated token book_id body u bk :
    r = PUT_book token book_id body ->
    routes_users.get_current_user settings token db = inr u ->
    crud_book.get_book db book_id (User.id u) = Some bk ->
    books db' = crud_book.commit_assigned (crud_book.assign bk body)
                  (books db) ->
    books_step r db db'
| books_deleted token book_id u bk :
    r = DELETE_book token book_id ->
    routes_users.get_current_user settings token db = inr u ->
    crud_book.get_book db book_id (User.id u) = Some bk ->
    books db' = filter (fun r => Book.id r <> Book.id bk) (books db) ->
    books_step r db db'.

End app.

(** The bearer token of a request, for the routes that depend on
    [get_current_user]: all of [core/routes/books.py]. *)
Definition request_token (r : request) : option string :=
  match r with
  | POST_users _ _ | POST_token _ => None
  | POST_books token _ | GET_books token _ _ | GET_book token _
  | PUT_book token _ _ | DELETE_book token _ => Some token
  end.

(** The requests whose routes call no [add], [delete] or [commit]. *)
Definition read_only (r : request) : bool :=
  match r with
  | POST_token _ | GET_books _ _ _ | GET_book _ _ => true
  | _ => false
  end.

(** ** Well-formed stores *)

(** The key and UNIQUE constraints of the two tables. *)
Definition wf_db (db : Db) : Prop :=
  NoDup (User.id <$> users db) /\
  NoDup (User.username <$> users db) /\
  NoDup (User.email <$> users db) /\
  NoDup (Book.id <$> books db).

#[global] Instance wf_db_dec db : Decision (wf_db db).
Proof. unfold wf_db. apply _. Defined.

Definition empty_db : Db := mkDb [] [].

(** Every book has its author among the users of the store. *)
Definition authors_exist (db : Db) : Prop :=
  forall b, b ∈ books db ->
    exists u, u ∈ users db /\ User.id u = Book.author_id b.

(** The books of one author, in storage order. *)
Definition books_of (db : Db) (user_id : Z) : list Book.t :=
  filter (fun b => Book.author_id b = user_id) (books db).

(** ** Transparent stand-ins for the two packages

    No cryptography: they satisfy the interfaces and let the routes run on
    concrete requests. *)

Fixpoint strip_prefix (p s : string) : option string :=
  match p, s with
  | EmptyString, _ => Some s
  | String a p', String b s' =>
      if Ascii.eqb a b then strip_prefix p' s' else None
  | String _ _, EmptyString => None
  end.

Definition plain_signing_input (key alg : string) : string :=
  alg +:+ ":" +:+ key +:+ ".".

Definition plain_encode (claims : gmap string string) (key alg : string)
  : string :=
  plain_signing_input key alg +:+
  match claims !! "sub" with
  | Some sub => "s" +:+ sub
  | None => "-"
  end.

Definition plain_decode (token key : string) (algorithms : list string)
  : option (gmap string string) :=
  match algorithms with
  | [alg] =>
      match strip_prefix (plain_signing_input key alg) token with
      | Some (String "s"%char sub) => Some {["sub" := sub]}
      | Some (String "-"%char EmptyString) => Some ∅
      | _ => None
      end
  | _ => None
  end.

Definition plain_jose : Jose :=
  {| jwt_encode := plain_encode;
     jwt_decode := plain_decode;
     jws_signature_ok token key alg :=
       bool_decide
         (is_Some (strip_prefix (plain_signing_input key alg) token)) |}.

(** The part of a string after its first dollar sign. *)
Fixpoint after_dollar (s : string) : option string :=
  match s with
  | EmptyString => None
  | String c s' => if Ascii.eqb c "$" then Some s' else after_dollar s'
  end.

Definition plain_bcrypt : Bcrypt :=
  {| bcrypt_hash salt secret := inr ("$2b$" +:+ salt +:+ "$" +:+ secret);
     bcrypt_verify secret hash :=
       match strip_prefix "$2b$" hash ≫= after_dollar with
       | Some stored => inr (String.eqb stored secret)
       | None => inl (HandlerError "malformed hash")
       end |}.

Definition test_settings : Settings.t :=
  Settings.mk "sqlite://" "your_jwt_secret_key" "HS256" 30.

(** ** A small store to run the handlers on *)

Definition alice_row : User.t := User.mk 1 "alice" "a@x.com" "$2b$salt$pw123".
Definition bob_row : User.t := User.mk 2 "bob" "b@x.com" "$2b$salt$hunter2".
Definition dune : Book.t := Book.mk 1 "Dune" 1 to_read.

Definition two_users_db : Db := mkDb [alice_row; bob_row] [dune].

(** A password with a NUL byte in the middle. *)
Definition nul_password : string := String "p" (String Ascii.zero "w").

Definition token_of (username : string) : string :=
  @routes_users.create_access_token plain_jose test_settings
    {["sub" := username]}.

(** * Properties *)

(** ** Lists and queries *)

Section queries.
Context {A : Type} (P : A -> Prop) `{!forall x, Decision (P x)}.

Lemma head_filter_elem (l : list A) (x : A) :
  head (filter P l) = Some x -> x ∈ l /\ P x.
Proof.
  intros Hx. apply head_Some_elem_of in Hx.
  apply list_elem_of_filter in Hx. tauto.
Qed.

Lemma head_filter_None (l : list A) :
  head (filter P l) = None <-> forall x, x ∈ l -> ~ P x.
Proof.
  rewrite head_None. split.
  - intros Hnil x Hx HP. eapply filter_nil_not_elem_of; eauto.
  - intros Hall. destruct (filter P l) as [|y k] eqn:E; [done|].
    assert (y ∈ filter P l) as Hy by (rewrite E; left).
    apply list_elem_of_filter in Hy as [HP Hy]. by destruct (Hall y Hy).
Qed.

(** A query that can match one row only returns that row. *)
Lemma head_filter_the (l : list A) (x : A) :
  x ∈ l -> P x -> (forall y, y ∈ l -> P y -> y = x) ->
  head (filter P l) = Some x.
Proof.
  intros Hx HP Huniq.
  destruct (head (filter P l)) as [y|] eqn:E.
  - apply head_filter_elem in E as [Hy HPy]. f_equal. by apply Huniq.
  - rewrite head_filter_None in E. by destruct (E x Hx).
Qed.
End queries.

(** Rows with the same value in a duplicate-free column are the same row. *)
Lemma NoDup_fmap_same {A B} (f : A -> B) (l : list A) (x y : A) :
  NoDup (f <$> l) -> x ∈ l -> y ∈ l -> f x = f y -> x = y.
Proof.
  induction l as [|a l IH]; intros Hnd Hx Hy Hf.
  - by apply elem_of_nil in Hx.
  - rewrite fmap_cons in Hnd. apply NoDup_cons in Hnd as [Ha Hnd].
    apply elem_of_cons in Hx as [->|Hx];
      apply elem_of_cons in Hy as [->|Hy]; auto.
    + destruct Ha. rewrite Hf. by apply list_elem_of_fmap_2.
    + destruct Ha. rewrite <- Hf. by apply list_elem_of_fmap_2.
Qed.

Lemma foldr_max_ge (ids : list Z) (x : Z) :
  x ∈ ids -> x <= foldr Z.max 0 ids.
Proof.
  induction ids as [|a ids IH]; intros Hx.
  - by apply elem_of_nil in Hx.
  - apply elem_of_cons in Hx as [->|Hx]; simpl; [lia|].
    specialize (IH Hx). lia.
Qed.

Lemma next_id_fresh (ids : list Z) : next_id ids ∉ ids.
Proof.
  intros Hin. apply foldr_max_ge in Hin. unfold next_id in Hin. lia.
Qed.

(** ** The request monad *)

Lemma req_bind_run {A B} (m : Req A) (k : A -> Req B) (db : Db) :
  (m ≫= k) db = match m db with
                | (inr a, db') => k a db'
                | (inl e, db') => (inl e, db')
                end.
Proof. reflexivity. Qed.

Lemma req_fmap_run {A B} (f : A -> B) (m : Req A) (db : Db) :
  (f <$> m) db = match m db with
                 | (inr a, db') => (inr (f a), db')
                 | (inl e, db') => (inl e, db')
                 end.
Proof.
  unfold fmap, Req_fmap, bind, ret. by destruct (m db) as [[e|a] db'].
Qed.

Ltac req_simpl :=
  repeat (rewrite ?req_bind_run, ?req_fmap_run;
          unfold query, lift, raise, mret, Req_ret, ret; cbn beta iota).

(** ** Ownership-scoped lookups *)

Lemma get_book_Some db book_id user_id b :
  crud_book.get_book db book_id user_id = Some b ->
  b ∈ books db /\ Book.id b = book_id /\ Book.author_id b = user_id.
Proof. intros Hb. apply head_filter_elem in Hb. tauto. Qed.

Lemma get_book_None db book_id user_id :
  crud_book.get_book db book_id user_id = None <->
  forall b, b ∈ books db -> Book.id b = book_id -> Book.author_id b <> user_id.
Proof.
  unfold crud_book.get_book. rewrite head_filter_None.
  split; intros Hall b Hb; specialize (Hall b Hb); tauto.
Qed.

Lemma get_book_owned db b :
  wf_db db -> b ∈ books db ->
  crud_book.get_book db (Book.id b) (Book.author_id b) = Some b.
Proof.
  intros (_ & _ & _ & Hids) Hb. apply head_filter_the; [done|done|].
  intros y Hy [Hid _]. eapply NoDup_fmap_same; eauto.
Qed.

Lemma get_book_foreign db b user_id :
  wf_db db -> b ∈ books db -> Book.author_id b <> user_id ->
  crud_book.get_book db (Book.id b) user_id = None.
Proof.
  intros (_ & _ & _ & Hids) Hb Hne. apply get_book_None.
  intros y Hy Hid. by rewrite (NoDup_fmap_same Book.id _ y b Hids Hy Hb Hid).
Qed.

Lemma get_book_absent db book_id user_id :
  book_id ∉ Book.id <$> books db ->
  crud_book.get_book db book_id user_id = None.
Proof.
  intros Habs. apply get_book_None. intros b Hb Hid.
  destruct Habs. rewrite <- Hid. by apply list_elem_of_fmap_2.
Qed.

(** ** The identity resolver *)

Lemma get_user_by_username_Some db username u :
  crud_user.get_user_by_username db username = Some u ->
  u ∈ users db /\ User.username u = username.
Proof.
  intros Hu.
  by apply (head_filter_elem (fun u => User.username u = username)) in Hu.
Qed.

Lemma get_user_by_username_the db u :
  wf_db db -> u ∈ users db ->
  crud_user.get_user_by_username db (User.username u) = Some u.
Proof.
  intros (_ & Hnames & _) Hu. apply head_filter_the; [done|done|].
  intros y Hy Hname. eapply NoDup_fmap_same; eauto.
Qed.

Lemma get_current_user_inr `{Jose} settings token db u :
  routes_users.get_current_user settings token db = inr u ->
  u ∈ users db /\
  exists payload,
    jwt_decode token (Settings.SECRET_KEY settings)
               [Settings.ALGORITHM settings] = Some payload /\
    payload !! "sub" = Some (User.username u).
Proof.
  unfold routes_users.get_current_user.
  destruct (jwt_decode _ _ _) as [payload|]; [|done].
  destruct (payload !! "sub") as [username|] eqn:Hsub; [|done].
  destruct (crud_user.get_user_by_username db username) as [u'|] eqn:Hu;
    [|done].
  intros [= ->]. apply get_user_by_username_Some in Hu as [Hu <-]. eauto.
Qed.

(** The resolver reads the users table only. *)
Lemma get_current_user_users `{Jose} settings token db db' :
  users db' = users db ->
  routes_users.get_current_user settings token db'
  = routes_users.get_current_user settings token db.
Proof.
  intros Hu. unfold routes_users.get_current_user,
    crud_user.get_user_by_username. by rewrite Hu.
Qed.

(** ** Isolation between owners *)

Lemma delete_book_None db book_id user_id :
  crud_book.get_book db book_id user_id = None ->
  crud_book.delete_book book_id user_id db = (inr None, db).
Proof. intros Hb. unfold crud_book.delete_book. by rewrite Hb. Qed.

Lemma routes_not_found `{Jose} settings token db u book_id book_update :
  routes_users.get_current_user settings token db = inr u ->
  crud_book.get_book db book_id (User.id u) = None ->
  let not_found := inl (Http (HTTPException.mk 404 "Book not found" ∅)) in
  routes_books.read_book settings token book_id db = (not_found, db) /\
  routes_books.update_book_status settings token book_id book_update db
  = (not_found, db) /\
  routes_books.delete_book settings token book_id db = (not_found, db).
Proof.
  intros Hu Hb. cbn zeta.
  unfold routes_books.read_book, routes_books.update_book_status,
    routes_books.delete_book.
  req_simpl. unfold routes_books.current_user. rewrite Hu. req_simpl.
  rewrite (delete_book_None _ _ _ Hb), Hb. done.
Qed.

(** C1. For two distinct users A and B of a well-formed store, a book of A
    is out of reach of every call made with B's token: [get_book] and
    [delete_book] give [None], GET, PUT and DELETE on [/books/{id}] answer
    404 "Book not found" and leave the store as it was, the listing (for an
    offset and a limit from 0 up to the 64-bit bound) does not contain the
    book, and the answers are those given for an id in [int64] that no book
    has. *)
Theorem books_isolated_between_users `{Jose} settings db token
    (A B : User.t) (b : Book.t) book_update :
  wf_db db -> A ∈ users db -> A <> B ->
  b ∈ books db -> Book.author_id b = User.id A ->
  routes_users.get_current_user settings token db = inr B ->
  let not_found := inl (Http (HTTPException.mk 404 "Book not found" ∅)) in
  crud_book.get_book db (Book.id b) (User.id B) = None /\
  crud_book.delete_book (Book.id b) (User.id B) db = (inr None, db) /\
  routes_books.read_book settings token (Book.id b) db = (not_found, db) /\
  routes_books.update_book_status settings token (Book.id b) book_update db
  = (not_found, db) /\
  routes_books.delete_book settings token (Book.id b) db = (not_found, db) /\
  (forall skip limit, 0 <= skip < 2 ^ 63 -> 0 <= limit < 2 ^ 63 ->
     exists bs, routes_books.read_books settings token skip limit db
                = (inr bs, db) /\ b ∉ bs) /\
  (forall book_id, int64 book_id -> book_id ∉ Book.id <$> books db ->
     crud_book.get_book db book_id (User.id B) = None /\
     crud_book.delete_book book_id (User.id B) db = (inr None, db) /\
     routes_books.read_book settings token book_id db = (not_found, db) /\
     routes_books.update_book_status settings token book_id book_update db
     = (not_found, db) /\
     routes_books.delete_book settings token book_id db = (not_found, db)).
Proof.
  intros Hwf HA HAB Hb Hauthor HB. cbn zeta.
  pose proof (get_current_user_inr _ _ _ _ HB) as [HBin _].
  assert (Book.author_id b <> User.id B) as Hforeign.
  { rewrite Hauthor. intros Hid. apply HAB.
    destruct Hwf as (Hids & _). eapply NoDup_fmap_same; eauto. }
  pose proof (get_book_foreign db b (User.id B) Hwf Hb Hforeign) as Hnone.
  split; [done|]. split; [by apply delete_book_None|].
  pose proof (routes_not_found settings token db B (Book.id b) book_update
                HB Hnone) as (? & ? & ?).
  repeat (split; [done|]). split.
  - intros skip limit _ _. eexists. split.
    + unfold routes_books.read_books. req_simpl.
      unfold routes_books.current_user. rewrite HB. by req_simpl.
    + unfold crud_book.get_books_by_user, sql_limit, sql_offset.
      intros Hin. apply Hforeign.
      assert (b ∈ filter (fun b0 => Book.author_id b0 = User.id B) (books db))
        as Hf.
      { case_decide; [|apply subseteq_take in Hin];
          by apply subseteq_drop in Hin. }
      apply list_elem_of_filter in Hf. tauto.
  - intros book_id _ Habs.
    pose proof (get_book_absent db book_id (User.id B) Habs) as Hnone'.
    split; [done|]. split; [by apply delete_book_None|].
    by apply (routes_not_found settings token db B).
Qed.

Lemma books_isolated_between_users_witness :
  let not_found := inl (Http (HTTPException.mk 404 "Book not found" ∅)) in
  crud_book.get_book two_users_db 1 2 = None /\
  @routes_books.read_book plain_jose test_settings (token_of "bob") 1
    two_users_db = (not_found, two_users_db) /\
  @routes_books.update_book_status plain_jose test_settings (token_of "bob") 1
    (BookUpdate.mk (Some "Mine") read) two_users_db
  = (not_found, two_users_db) /\
  @routes_books.delete_book plain_jose test_settings (token_of "bob") 1
    two_users_db = (not_found, two_users_db).
Proof.
  destruct (@books_isolated_between_users plain_jose test_settings
              two_users_db (token_of "bob") alice_row bob_row dune
              (BookUpdate.mk (Some "Mine") read))
    as (Hget & _ & Hread & Hput & Hdel & _); try compute_done.
  cbn zeta. repeat split; assumption.
Defined.

(** ** Updating a book *)

Lemma assign_id book book_update :
  Book.id (crud_book.assign book book_update) = Book.id book.
Proof.
  unfold crud_book.assign.
  destruct (BookUpdate.title book_update) as [t|]; [|done].
  by destruct (truthy (Some t)).
Qed.

Lemma assign_author_id book book_update :
  Book.author_id (crud_book.assign book book_update) = Book.author_id book.
Proof.
  unfold crud_book.assign.
  destruct (BookUpdate.title book_update) as [t|]; [|done].
  by destruct (truthy (Some t)).
Qed.

Lemma assign_status book book_update :
  Book.status (crud_book.assign book book_update)
  = BookUpdate.status book_update.
Proof. done. Qed.

Lemma assign_title book book_update :
  Book.title (crud_book.assign book book_update)
  = match BookUpdate.title book_update with
    | Some new_title =>
        if decide (new_title = "") then Book.title book else new_title
    | None => Book.title book
    end.
Proof.
  unfold crud_book.assign.
  destruct (BookUpdate.title book_update) as [t|]; [|done].
  unfold truthy. case_decide as Ht.
  - subst t. done.
  - apply String.eqb_neq in Ht. by rewrite Ht.
Qed.

Lemma commit_assigned_ids book rows :
  Book.id <$> crud_book.commit_assigned book rows = Book.id <$> rows.
Proof.
  unfold crud_book.commit_assigned. rewrite <- list_fmap_compose.
  apply list_fmap_ext. intros i r _. simpl. by case_decide.
Qed.

Lemma commit_assigned_author_ids book rows :
  Book.author_id <$> crud_book.commit_assigned book rows
  = Book.author_id <$> rows.
Proof.
  unfold crud_book.commit_assigned. rewrite <- list_fmap_compose.
  apply list_fmap_ext. intros i r _. simpl. by case_decide.
Qed.

(** A row of the table after the commit comes from a row before it. *)
Lemma commit_assigned_elem book rows r' :
  r' ∈ crud_book.commit_assigned book rows ->
  exists r, r ∈ rows /\ Book.id r' = Book.id r /\
            Book.author_id r' = Book.author_id r /\
            (Book.id r <> Book.id book -> r' = r) /\
            (Book.id r = Book.id book ->
             Book.title r' = Book.title book /\
             Book.status r' = Book.status book).
Proof.
  unfold crud_book.commit_assigned. intros Hr'.
  apply list_elem_of_fmap in Hr' as (r & -> & Hr).
  exists r. split; [done|]. by case_decide.
Qed.

Lemma commit_assigned_other book rows r :
  r ∈ rows -> Book.id r <> Book.id book ->
  r ∈ crud_book.commit_assigned book rows.
Proof.
  intros Hr Hne. unfold crud_book.commit_assigned.
  apply list_elem_of_fmap. exists r. split; [|done]. by case_decide.
Qed.

(** The object was loaded from the table: after the commit its row holds
    the assigned object, and [refresh] gives it back. *)
Lemma refresh_commit_assigned db book book_update :
  wf_db db -> book ∈ books db ->
  let book' := crud_book.assign book book_update in
  book' ∈ crud_book.commit_assigned book' (books db) /\
  crud_book.refresh book' (crud_book.commit_assigned book' (books db)) = book'.
Proof.
  intros (_ & _ & _ & Hids) Hb book'.
  assert (book' ∈ crud_book.commit_assigned book' (books db)) as Hin.
  { unfold crud_book.commit_assigned. apply list_elem_of_fmap.
    exists book. split; [|done]. subst book'. rewrite assign_id.
    rewrite decide_True by done. unfold crud_book.assign.
    destruct book. destruct (BookUpdate.title book_update) as [t|]; [|done].
    by destruct (truthy (Some t)). }
  split; [done|]. unfold crud_book.refresh.
  erewrite head_filter_the; [done|exact Hin|done|].
  intros y Hy Hid.
  apply (NoDup_fmap_same Book.id
           (crud_book.commit_assigned book' (books db)) y book');
    [by rewrite commit_assigned_ids|done..].
Qed.

(** C6. [update_book_status] on a book of the table always stores the
    supplied status; it stores the supplied title when that title is a
    non-empty string, and keeps the old title when the title is absent or
    empty.  The returned object is the stored row; the other rows stay. *)
Theorem update_book_status_writes db book book_update :
  wf_db db -> book ∈ books db ->
  exists book' db',
    crud_book.update_book_status book book_update db = (inr book', db') /\
    Book.status book' = BookUpdate.status book_update /\
    (forall new_title, BookUpdate.title book_update = Some new_title ->
       new_title <> "" -> Book.title book' = new_title) /\
    (BookUpdate.title book_update = None \/
     BookUpdate.title book_update = Some "" ->
     Book.title book' = Book.title book) /\
    crud_book.get_book db' (Book.id book) (Book.author_id book) = Some book' /\
    (forall r, Book.id r <> Book.id book -> r ∈ books db' <-> r ∈ books db) /\
    users db' = users db.
Proof.
  intros Hwf Hb.
  pose proof (refresh_commit_assigned db book book_update Hwf Hb)
    as [Hin Hrefresh]. cbn zeta in *.
  eexists _, _. split; [reflexivity|]. rewrite Hrefresh.
  split; [apply assign_status|].
  split; [|split; [|split; [|split; [|done]]]].
  - intros t Ht Hne. rewrite assign_title, Ht. by rewrite decide_False.
  - intros [Ht|Ht]; rewrite assign_title, Ht; [done|].
    by rewrite decide_True.
  - rewrite <- (assign_id book book_update) at 1.
    rewrite <- (assign_author_id book book_update).
    apply get_book_owned; [|done].
    destruct Hwf as (? & ? & ? & ?). repeat split; simpl; try done.
    by rewrite commit_assigned_ids.
  - intros r Hne. simpl. split.
    + intros Hr. apply commit_assigned_elem in Hr
        as (r0 & Hr0 & Hid & _ & Hsame & _).
      rewrite assign_id in Hsame. rewrite (Hsame ltac:(congruence)). done.
    + intros Hr. apply commit_assigned_other; [done|]. by rewrite assign_id.
Qed.

Lemma update_book_status_writes_witness :
  exists db',
    crud_book.update_book_status dune (BookUpdate.mk None read) two_users_db
    = (inr (Book.mk 1 "Dune" 1 read), db') /\
    books db' = [Book.mk 1 "Dune" 1 read].
Proof.
  destruct (update_book_status_writes two_users_db dune
              (BookUpdate.mk None read))
    as (book' & db' & Hrun & _); try compute_done.
  exists db'. vm_compute in Hrun. injection Hrun as <- <-. done.
Defined.

(** ** What one request does to the two tables *)

Section steps.
Context `{Bcrypt} `{Jose} (settings : Settings.t).

Lemma handle_books_step (r : request) (db : Db) :
  books_step settings r db (handle settings r db).2.
Proof.
  destruct r as [salt body|form|token body|token skip limit|token book_id
                |token book_id body|token book_id]; cbn [handle];
    rewrite req_fmap_run.
  - unfold routes_users.create_user. req_simpl.
    destruct (routes_users.get_password_hash _ _) as [e|h]; [by constructor 1|].
    req_simpl. destruct (crud_user.get_user_by_email _ _); [by constructor 1|].
    unfold crud_user.create_user.
    destruct (crud_user.unique_violation _ _ _); by constructor 1.
  - unfold routes_users.login_for_access_token. req_simpl.
    destruct (crud_user.get_user_by_username _ _) as [u|]; [|by constructor 1].
    req_simpl. destruct (routes_users.verify_password _ _) as [e|[]];
      by constructor 1.
  - unfold routes_books.create_book, routes_books.current_user. req_simpl.
    destruct (routes_users.get_current_user _ _ _) as [e|u] eqn:Hu;
      [by constructor 1|].
    eapply books_created; eauto.
  - unfold routes_books.read_books, routes_books.current_user. req_simpl.
    destruct (routes_users.get_current_user _ _ _) as [e|u]; by constructor 1.
  - unfold routes_books.read_book, routes_books.current_user. req_simpl.
    destruct (routes_users.get_current_user _ _ _) as [e|u]; [by constructor 1|].
    req_simpl. destruct (crud_book.get_book _ _ _); by constructor 1.
  - unfold routes_books.update_book_status, routes_books.current_user.
    req_simpl.
    destruct (routes_users.get_current_user _ _ _) as [e|u] eqn:Hu;
      [by constructor 1|].
    req_simpl. destruct (crud_book.get_book _ _ _) as [bk|] eqn:Hbk;
      [|by constructor 1].
    eapply books_updated; eauto.
  - unfold routes_books.delete_book, routes_books.current_user. req_simpl.
    destruct (routes_users.get_current_user _ _ _) as [e|u] eqn:Hu;
      [by constructor 1|].
    req_simpl. unfold crud_book.delete_book.
    destruct (crud_book.get_book _ _ _) as [bk|] eqn:Hbk; [|by constructor 1].
    eapply books_deleted; eauto.
Qed.

(** The users table after a request: unchanged, or one row appended by a
    successful registration. *)
Lemma handle_users_step (r : request) (db : Db) :
  users (handle settings r db).2 = users db \/
  exists salt body h,
    r = POST_users salt body /\
    crud_user.unique_violation db (UserCreate.username body)
                               (UserCreate.email body) = false /\
    users (handle settings r db).2 = (users db ++
      [User.mk (next_id (User.id <$> users db)) (UserCreate.username body)
               (UserCreate.email body) h])%list.
Proof.
  destruct r as [salt body|form|token body|token skip limit|token book_id
                |token book_id body|token book_id]; cbn [handle] in *;
    rewrite req_fmap_run in *.
  - unfold routes_users.create_user. req_simpl.
    destruct (routes_users.get_password_hash _ _) as [e|h]; [by left|].
    req_simpl. destruct (crud_user.get_user_by_email _ _); [by left|].
    unfold crud_user.create_user.
    destruct (crud_user.unique_violation _ _ _) eqn:Hv; [by left|].
    right. by exists salt, body, h.
  - unfold routes_users.login_for_access_token. req_simpl.
    destruct (crud_user.get_user_by_username _ _) as [u|]; [|by left].
    req_simpl. destruct (routes_users.verify_password _ _) as [e|[]];
      by left.
  - unfold routes_books.create_book, routes_books.current_user. req_simpl.
    destruct (routes_users.get_current_user _ _ _) as [e|u]; by left.
  - unfold routes_books.read_books, routes_books.current_user. req_simpl.
    destruct (routes_users.get_current_user _ _ _) as [e|u]; by left.
  - unfold routes_books.read_book, routes_books.current_user. req_simpl.
    destruct (routes_users.get_current_user _ _ _) as [e|u]; [by left|].
    req_simpl. destruct (crud_book.get_book _ _ _); by left.
  - unfold routes_books.update_book_status, routes_books.current_user.
    req_simpl.
    destruct (routes_users.get_current_user _ _ _) as [e|u]; [by left|].
    req_simpl. destruct (crud_book.get_book _ _ _) as [bk|]; by left.
  - unfold routes_books.delete_book, routes_books.current_user. req_simpl.
    destruct (routes_users.get_current_user _ _ _) as [e|u]; [by left|].
    req_simpl. unfold crud_book.delete_book.
    destruct (crud_book.get_book _ _ _) as [bk|]; by left.
Qed.

Lemma NoDup_snoc_fresh {A} (l : list A) (x : A) :
  NoDup l -> x ∉ l -> NoDup (l ++ [x]).
Proof.
  intros Hnd Hx. apply NoDup_app. split; [done|]. split.
  - intros y Hy Hyx. apply list_elem_of_singleton in Hyx. by subst.
  - apply NoDup_singleton.
Qed.

Lemma unique_violation_false db username email :
  crud_user.unique_violation db username email = false ->
  (username ∉ User.username <$> users db) /\
  (email ∉ User.email <$> users db).
Proof.
  unfold crud_user.unique_violation. intros Hv.
  apply orb_false_iff in Hv as [Hn He].
  apply bool_decide_eq_false in Hn. apply bool_decide_eq_false in He. done.
Qed.

(** The key and UNIQUE constraints hold after every request. *)
Lemma handle_wf (r : request) (db : Db) :
  wf_db db -> wf_db (handle settings r db).2.
Proof.
  intros (Huid & Hname & Hmail & Hbid).
  assert (NoDup (Book.id <$> books (handle settings r db).2)) as Hbooks.
  { destruct (handle_books_step r db) as [->| ? ? ? _ _ -> | ? ? ? ? ? _ _ _ ->
                                         | ? ? ? ? _ _ _ ->].
    - done.
    - rewrite fmap_app. apply NoDup_snoc_fresh; [done|apply next_id_fresh].
    - by rewrite commit_assigned_ids.
    - eapply sublist_NoDup; [exact Hbid|].
      apply fmap_sublist, sublist_filter. }
  unfold wf_db.
  destruct (handle_users_step r db) as [->|(salt & body & h & _ & Hv & ->)].
  - done.
  - apply unique_violation_false in Hv as [Hn He].
    rewrite !fmap_app. repeat split; [..|done].
    + apply NoDup_snoc_fresh; [done|apply next_id_fresh].
    + by apply NoDup_snoc_fresh.
    + by apply NoDup_snoc_fresh.
Qed.

Lemma run_wf (rs : list request) (db : Db) :
  wf_db db -> wf_db (run settings rs db).
Proof.
  revert db. induction rs as [|r rs IH]; intros db Hwf; [done|].
  simpl. apply IH. by apply handle_wf.
Qed.

(** In one request a row keeps its key and its author, or is removed. *)
Lemma handle_keeps_author (r : request) (db : Db) (b b' : Book.t) :
  wf_db db -> b ∈ books db -> b' ∈ books (handle settings r db).2 ->
  Book.id b' = Book.id b -> Book.author_id b' = Book.author_id b.
Proof.
  intros (_ & _ & _ & Hbid) Hb Hb' Hid.
  destruct (handle_books_step r db) as [Hs| ? ? ? _ _ Hs | ? ? ? ? ? _ _ _ Hs
                                       | ? ? ? ? _ _ _ Hs];
    rewrite Hs in Hb'.
  - by rewrite (NoDup_fmap_same Book.id _ b' b Hbid Hb' Hb Hid).
  - apply elem_of_app in Hb' as [Hb'|Hb'].
    + by rewrite (NoDup_fmap_same Book.id _ b' b Hbid Hb' Hb Hid).
    + apply list_elem_of_singleton in Hb'. subst b'. simpl in Hid.
      destruct (next_id_fresh (Book.id <$> books db)). rewrite Hid.
      by apply list_elem_of_fmap_2.
  - apply commit_assigned_elem in Hb' as (r0 & Hr0 & Hid0 & Hau0 & _).
    rewrite Hau0. f_equal.
    apply (NoDup_fmap_same Book.id _ r0 b Hbid Hr0 Hb). congruence.
  - apply list_elem_of_filter in Hb' as [_ Hb'].
    by rewrite (NoDup_fmap_same Book.id _ b' b Hbid Hb' Hb Hid).
Qed.

(** Every store the application reaches from the empty one is well-formed. *)
Lemma reachable_wf (rs : list request) : wf_db (run settings rs empty_db).
Proof. apply run_wf. repeat split; simpl; apply NoDup_nil_2. Qed.

(** Users are never removed. *)
Lemma handle_users_grow (r : request) (db : Db) (u : User.t) :
  u ∈ users db -> u ∈ users (handle settings r db).2.
Proof.
  intros Hu.
  destruct (handle_users_step r db) as [->|(? & ? & ? & _ & _ & ->)];
    [done|].
  apply elem_of_app. by left.
Qed.

Lemma handle_authors_exist (r : request) (db : Db) :
  authors_exist db -> authors_exist (handle settings r db).2.
Proof.
  intros Hinv b' Hb'.
  assert (forall b, b ∈ books db -> Book.author_id b' = Book.author_id b ->
            exists u, u ∈ users (handle settings r db).2 /\
                      User.id u = Book.author_id b') as Hold.
  { intros b Hb Hau. destruct (Hinv b Hb) as (u & Hu & Hid).
    exists u. split; [by apply handle_users_grow|congruence]. }
  destruct (handle_books_step r db)
    as [Hs| token body u Hr Hu Hs | ? ? ? ? ? _ _ _ Hs | ? ? ? ? _ _ _ Hs];
    rewrite Hs in Hb'.
  - by apply (Hold b').
  - apply elem_of_app in Hb' as [Hb'|Hb']; [by apply (Hold b')|].
    apply list_elem_of_singleton in Hb'. subst b'.
    apply get_current_user_inr in Hu as [Hu _].
    exists u. split; [by apply handle_users_grow|done].
  - apply commit_assigned_elem in Hb' as (r0 & Hr0 & _ & Hau0 & _).
    by apply (Hold r0).
  - apply list_elem_of_filter in Hb' as [_ Hb']. by apply (Hold b').
Qed.

End steps.

(** ** Authorship *)

Lemma create_book_run `{Jose} settings token body db u :
  routes_users.get_current_user settings token db = inr u ->
  let b := Book.mk (next_id (Book.id <$> books db)) (BookCreate.title body)
                   (User.id u) (BookCreate.status body) in
  routes_books.create_book settings token body db
  = (inr b, mkDb (users db) (books db ++ [b])).
Proof.
  intros Hu. unfold routes_books.create_book, routes_books.current_user.
  req_simpl. by rewrite Hu.
Qed.

(** C2. The row made by [POST /books/] carries the id of the user the token
    resolves to as its [author_id] (the request body, a [BookCreate], has
    title and status only).  [update_book_status] returns and stores a row
    with the key and the author of the object it was given, and the key and
    author columns of the table are as before.  After any request, a row
    with the key of an earlier row has the author of that row, and every
    row is either such a row or the one just created for the resolved
    user. *)
Theorem author_id_set_once `{Bcrypt} `{Jose} settings db :
  wf_db db ->
  (forall token body u,
     routes_users.get_current_user settings token db = inr u ->
     exists b db',
       routes_books.create_book settings token body db = (inr b, db') /\
       Book.author_id b = User.id u /\
       Book.title b = BookCreate.title body /\
       Book.status b = BookCreate.status body /\
       books db' = books db ++ [b] /\
       Book.id b ∉ Book.id <$> books db) /\
  (forall book book_update, book ∈ books db ->
     exists book' db',
       crud_book.update_book_status book book_update db = (inr book', db') /\
       Book.id book' = Book.id book /\
       Book.author_id book' = Book.author_id book /\
       Book.id <$> books db' = Book.id <$> books db /\
       Book.author_id <$> books db' = Book.author_id <$> books db /\
       users db' = users db) /\
  (forall r b b',
     b ∈ books db -> b' ∈ books (handle settings r db).2 ->
     Book.id b' = Book.id b -> Book.author_id b' = Book.author_id b) /\
  (forall r b',
     b' ∈ books (handle settings r db).2 ->
     (exists b, b ∈ books db /\ Book.id b' = Book.id b /\
                Book.author_id b' = Book.author_id b) \/
     (exists token body u,
        r = POST_books token body /\
        routes_users.get_current_user settings token db = inr u /\
        Book.author_id b' = User.id u)).
Proof.
  intros Hwf. split; [|split; [|split]].
  - intros token body u Hu. eexists _, _.
    split; [by apply create_book_run|]. repeat split. apply next_id_fresh.
  - intros book book_update Hb.
    pose proof (refresh_commit_assigned db book book_update Hwf Hb)
      as [_ Hrefresh]. cbn zeta in Hrefresh.
    eexists _, _. split; [reflexivity|]. rewrite Hrefresh.
    split; [apply assign_id|]. split; [apply assign_author_id|]. simpl.
    by rewrite commit_assigned_ids, commit_assigned_author_ids.
  - intros r b b'. by apply handle_keeps_author.
  - intros r b' Hb'.
    destruct (handle_books_step settings r db)
      as [Hs| token body u Hr Hu Hs | ? ? ? ? ? _ _ _ Hs | ? ? ? ? _ _ _ Hs];
      rewrite Hs in Hb'.
    + left. by exists b'.
    + apply elem_of_app in Hb' as [Hb'|Hb'].
      * left. by exists b'.
      * apply list_elem_of_singleton in Hb'. subst b'. right.
        by exists token, body, u.
    + apply commit_assigned_elem in Hb' as (r0 & Hr0 & Hid0 & Hau0 & _).
      left. by exists r0.
    + apply list_elem_of_filter in Hb' as [_ Hb']. left. by exists b'.
Qed.

Lemma author_id_set_once_witness :
  exists b db',
    @routes_books.create_book plain_jose test_settings (token_of "bob")
      (BookCreate.mk "Emma" to_read) two_users_db = (inr b, db') /\
    Book.author_id b = User.id bob_row /\
    books db' = [dune; b].
Proof.
  destruct (@author_id_set_once plain_bcrypt plain_jose test_settings
              two_users_db) as (Hcreate & _); [compute_done|].
  destruct (Hcreate (token_of "bob") (BookCreate.mk "Emma" to_read) bob_row)
    as (b & db' & Hrun & Hauthor & _ & _ & Hbooks & _); [compute_done|].
  exists b, db'. repeat split; assumption.
Defined.

(** ** Failures of the identity resolver *)

(** C8. The resolver fails exactly when the token does not decode, or
    decodes to a claim set without ["sub"], or names a subject that no user
    row has.  Every failure is the same exception: status 401 with the
    header [WWW-Authenticate: Bearer].  When the token decodes to a subject
    that a user row has, the resolver returns the user found by that
    username. *)
Theorem get_current_user_unauthorized_iff `{Jose} settings token db :
  let decoded :=
    jwt_decode token (Settings.SECRET_KEY settings)
               [Settings.ALGORITHM settings] in
  ((exists e, routes_users.get_current_user settings token db = inl e) <->
   decoded = None \/
   (exists payload, decoded = Some payload /\ payload !! "sub" = None) \/
   (exists payload username,
      decoded = Some payload /\ payload !! "sub" = Some username /\
      forall u, u ∈ users db -> User.username u <> username)) /\
  (forall e, routes_users.get_current_user settings token db = inl e ->
     exists h, e = Http h /\
       HTTPException.status_code h = 401 /\
       HTTPException.headers h !! "WWW-Authenticate" = Some "Bearer" /\
       HTTPException.detail h = "Could not validate credentials") /\
  (forall payload username u,
     decoded = Some payload -> payload !! "sub" = Some username ->
     crud_user.get_user_by_username db username = Some u ->
     routes_users.get_current_user settings token db = inr u /\
     u ∈ users db /\ User.username u = username).
Proof.
  cbn zeta. unfold routes_users.get_current_user.
  destruct (jwt_decode _ _ _) as [payload|].
  2:{ split; [split; eauto|]. split; [|done].
      intros e [= <-]. by eexists. }
  destruct (payload !! "sub") as [username|] eqn:Hsub.
  2:{ split; [split; eauto 6|]. split; [|congruence].
      intros e [= <-]. by eexists. }
  destruct (crud_user.get_user_by_username db username) as [u|] eqn:Hu.
  - split; [|split; [done|]].
    + split; [by intros [e ?]|].
      intros [?|[(p & [= <-] & ?)|(p & n & [= <-] & Hn & Hall)]];
        [done|congruence|].
      apply get_user_by_username_Some in Hu as [Hin Hname].
      destruct (Hall u Hin). congruence.
    + intros p n u' [= <-] Hn. rewrite Hsub in Hn. injection Hn as <-.
      rewrite Hu. intros [= <-].
      apply get_user_by_username_Some in Hu. tauto.
  - split; [|split].
    + split; [|eauto]. intros _. right. right.
      exists payload, username. repeat split; [done|].
      intros u Hin Hname.
      unfold crud_user.get_user_by_username in Hu.
      rewrite head_filter_None in Hu. by apply (Hu u).
    + intros e [= <-]. by eexists.
    + intros p n u' [= <-] Hn. rewrite Hsub in Hn. injection Hn as <-.
      by rewrite Hu.
Qed.

Lemma get_current_user_unauthorized_iff_witness :
  @routes_users.get_current_user plain_jose test_settings (token_of "bob")
    two_users_db = inr bob_row /\
  exists h,
    @routes_users.get_current_user plain_jose test_settings (token_of "carol")
      two_users_db = inl (Http h) /\
    HTTPException.status_code h = 401.
Proof.
  destruct (@get_current_user_unauthorized_iff plain_jose test_settings
              (token_of "bob") two_users_db) as (_ & _ & Hok).
  destruct (Hok {["sub" := "bob"]} "bob" bob_row) as (Hbob & _);
    try compute_done.
  split; [exact Hbob|].
  destruct (@get_current_user_unauthorized_iff plain_jose test_settings
              (token_of "carol") two_users_db) as (_ & Hfail & _).
  destruct (Hfail (Http (HTTPException.mk 401 "Could not validate credentials"
                           {["WWW-Authenticate" := "Bearer"]})))
    as (h & Hh & Hcode & _); [compute_done|].
  exists h. split; [|exact Hcode]. rewrite <- Hh. compute_done.
Defined.

(** ** Issued tokens *)

Lemma strip_prefix_app (p r : string) : strip_prefix p (p +:+ r) = Some r.
Proof.
  induction p as [|a p IH]; simpl; [done|]. by rewrite Ascii.eqb_refl.
Qed.

Lemma plain_jose_laws : @JoseLaws plain_jose.
Proof.
  split.
  - intros sub key alg. simpl. unfold plain_decode, plain_encode.
    rewrite lookup_singleton_eq, strip_prefix_app. done.
  - intros token key alg Hsig. simpl in *. unfold plain_decode.
    apply bool_decide_eq_false in Hsig.
    destruct (strip_prefix _ token) as [rest|]; [|done].
    destruct Hsig. by eexists.
Qed.

Lemma verify_password_run `{Bcrypt} plain_password hashed_password :
  routes_users.verify_password plain_password hashed_password
  = if bcrypt_identify hashed_password
    then bcrypt_verify plain_password hashed_password
    else inl UnknownHashError.
Proof.
  unfold routes_users.verify_password, CryptContext.verify. simpl.
  by destruct (bcrypt_identify hashed_password).
Qed.

(** A successful login answers with a token issued for the username of the
    user it found, and leaves the store as it was. *)
Lemma login_for_access_token_inr `{Bcrypt} `{Jose} settings form db tok db' :
  routes_users.login_for_access_token settings form db = (inr tok, db') ->
  db' = db /\ Token.token_type tok = "bearer" /\
  exists u,
    u ∈ users db /\ User.username u = LoginForm.username form /\
    routes_users.verify_password (LoginForm.password form)
                                 (User.hashed_password u) = inr true /\
    Token.access_token tok
    = routes_users.create_access_token settings {["sub" := User.username u]}.
Proof.
  unfold routes_users.login_for_access_token. req_simpl.
  destruct (crud_user.get_user_by_username db _) as [u|] eqn:Hu; [|done].
  req_simpl.
  destruct (routes_users.verify_password _ _) as [e|[]] eqn:Hv; [done| |done].
  simpl. intros [= <- <-]. apply get_user_by_username_Some in Hu as [? ?].
  repeat split; eauto.
Qed.

(** C3. With a token codec that decodes what it encoded and refuses a token
    whose signature does not check: the token issued for the username of a
    user U of a well-formed store resolves to U, so does the token answered
    by a successful login as U, and a token whose signature does not check
    makes the resolver raise the 401 exception. *)
Theorem issued_token_resolves `{Bcrypt} `{Jose} `{!JoseLaws} settings db :
  wf_db db ->
  (forall u, u ∈ users db ->
     routes_users.get_current_user settings
       (routes_users.create_access_token settings
          {["sub" := User.username u]}) db = inr u) /\
  (forall form tok db',
     routes_users.login_for_access_token settings form db = (inr tok, db') ->
     exists u, u ∈ users db /\ User.username u = LoginForm.username form /\
       routes_users.get_current_user settings (Token.access_token tok) db'
       = inr u) /\
  (forall token,
     jws_signature_ok token (Settings.SECRET_KEY settings)
                      (Settings.ALGORITHM settings) = false ->
     routes_users.get_current_user settings token db
     = inl (Http (HTTPException.mk 401 "Could not validate credentials"
                    {["WWW-Authenticate" := "Bearer"]}))).
Proof.
  intros Hwf.
  assert (forall u, u ∈ users db ->
     routes_users.get_current_user settings
       (routes_users.create_access_token settings
          {["sub" := User.username u]}) db = inr u) as Hissue.
  { intros u Hu.
    unfold routes_users.get_current_user, routes_users.create_access_token.
    rewrite decode_encode_sub, lookup_singleton_eq.
    by rewrite get_user_by_username_the. }
  split; [done|]. split.
  - intros form tok db' Hlogin.
    apply login_for_access_token_inr in Hlogin
      as (-> & _ & u & Hu & Hname & _ & ->).
    exists u. auto.
  - intros token Hsig. unfold routes_users.get_current_user.
    by rewrite decode_checks_signature.
Qed.

Lemma issued_token_resolves_witness :
  @routes_users.get_current_user plain_jose test_settings
    (@routes_users.create_access_token plain_jose test_settings
       {["sub" := "alice"]}) two_users_db = inr alice_row /\
  @routes_users.get_current_user plain_jose test_settings
    "HS256:another_key.salice" two_users_db
  = inl (Http (HTTPException.mk 401 "Could not validate credentials"
                 {["WWW-Authenticate" := "Bearer"]})).
Proof.
  destruct (@issued_token_resolves plain_bcrypt plain_jose plain_jose_laws
              test_settings two_users_db) as (Hissue & _ & Hbad);
    [compute_done|].
  split.
  - apply (Hissue alice_row). compute_done.
  - apply Hbad. compute_done.
Defined.

(** ** Password verification against a string that is not a hash *)

(** Where the code leaves the claim of C4, in general.  [verify_password]
    hands both strings to the context and catches nothing: for every
    password and every string that does not start with a bcrypt identifier
    the context raises [UnknownHashError], and that is the outcome of
    [verify_password]; it is not the verdict [False].  (For a string that
    does start with one, the outcome is that of the bcrypt handler:
    [verify_password_run].) *)
Theorem verify_password_unidentified_raises `{Bcrypt}
    (plain_password hashed_password : string) :
  bcrypt_identify hashed_password = false ->
  routes_users.verify_password plain_password hashed_password
  = inl UnknownHashError /\
  routes_users.verify_password plain_password hashed_password <> inr false.
Proof.
  intros Hid. rewrite verify_password_run, Hid. done.
Qed.

Lemma verify_password_unidentified_raises_witness :
  @routes_users.verify_password plain_bcrypt "pw123" ""
  = inl UnknownHashError.
Proof.
  apply (@verify_password_unidentified_raises plain_bcrypt "pw123" "").
  reflexivity.
Defined.

(** C4.  The code breaks the claim, and with it the docstring and the
    [-> bool] of [verify_password]: the password ["pw123"] against the
    string ["not-a-hash"], which is no hash, raises [UnknownHashError]; it
    does not return [False].  The bcrypt handler is not consulted. *)
Lemma verify_password_not_a_hash :
  @routes_users.verify_password plain_bcrypt "pw123" "not-a-hash"
  = inl UnknownHashError /\
  @routes_users.verify_password plain_bcrypt "pw123" "not-a-hash"
  <> inr false.
Proof. split; [reflexivity|discriminate]. Qed.

(** ** Registration *)

Lemma get_password_hash_run `{Bcrypt} salt password :
  routes_users.get_password_hash salt password
  = if contains_nul password then inl PasswordValueError
    else bcrypt_hash salt password.
Proof. reflexivity. Qed.

Lemma get_user_by_email_is_Some db email :
  is_Some (crud_user.get_user_by_email db email) <->
  email ∈ User.email <$> users db.
Proof.
  unfold crud_user.get_user_by_email. split.
  - intros [u Hu].
    apply (head_filter_elem (fun u => User.email u = email)) in Hu
      as [Hin <-].
    by apply list_elem_of_fmap_2.
  - intros Hin. apply list_elem_of_fmap in Hin as (u & -> & Hu).
    destruct (head (filter _ (users db))) as [v|] eqn:E; [by eexists|].
    rewrite head_filter_None in E. by destruct (E u Hu).
Qed.

(** The hash comes first: when hashing raises, the route raises the same
    exception, whatever the tables hold. *)
Lemma create_user_hash_raises `{Bcrypt} salt user db e :
  routes_users.get_password_hash salt (UserCreate.password user) = inl e ->
  routes_users.create_user salt user db = (inl e, db).
Proof.
  intros Hhash. unfold routes_users.create_user. req_simpl.
  by rewrite Hhash.
Qed.

Lemma create_user_registered `{Bcrypt} salt user db h :
  routes_users.get_password_hash salt (UserCreate.password user) = inr h ->
  UserCreate.email user ∈ User.email <$> users db ->
  routes_users.create_user salt user db
  = (inl (Http (HTTPException.mk 400 "Email already registered" ∅)), db).
Proof.
  intros Hhash Hin. apply get_user_by_email_is_Some in Hin as [u Hu].
  unfold routes_users.create_user. req_simpl.
  rewrite Hhash. req_simpl. by rewrite Hu.
Qed.

Lemma create_user_novel `{Bcrypt} salt user db h :
  routes_users.get_password_hash salt (UserCreate.password user) = inr h ->
  UserCreate.email user ∉ User.email <$> users db ->
  routes_users.create_user salt user db = crud_user.create_user user h db.
Proof.
  intros Hhash Hout. unfold routes_users.create_user. req_simpl.
  rewrite Hhash. req_simpl.
  destruct (crud_user.get_user_by_email db _) as [u|] eqn:Hu; [|done].
  destruct Hout. apply get_user_by_email_is_Some. by eexists.
Qed.

(** A password with a NUL byte is refused before the email is looked up,
    for every bcrypt computation behind the handler. *)
Lemma create_user_nul_password `{Bcrypt} salt user db :
  contains_nul (UserCreate.password user) = true ->
  routes_users.create_user salt user db = (inl PasswordValueError, db).
Proof.
  intros Hnul. apply create_user_hash_raises.
  by rewrite get_password_hash_run, Hnul.
Qed.

(** C5.  The code breaks the claim on a password with a NUL byte.  The
    route hashes before it looks for the email, and the bcrypt handler
    refuses such a password: the registration raises [PasswordValueError]
    with a registered email, where the claim and the docstring of the route
    have the 400, and with a novel email and username, where the claim has
    success.  The store is left as it was. *)
Theorem registration_with_nul_password :
  "a@x.com" ∈ User.email <$> users two_users_db /\
  @routes_users.create_user plain_bcrypt "salt"
    (UserCreate.mk "eve" "a@x.com" nul_password) two_users_db
  = (inl PasswordValueError, two_users_db) /\
  ("c@x.com" ∉ User.email <$> users two_users_db) /\
  ("carol" ∉ User.username <$> users two_users_db) /\
  @routes_users.create_user plain_bcrypt "salt"
    (UserCreate.mk "carol" "c@x.com" nul_password) two_users_db
  = (inl PasswordValueError, two_users_db).
Proof.
  split; [compute_done|]. split; [by apply create_user_nul_password|].
  split; [compute_done|]. split; [compute_done|].
  by apply create_user_nul_password.
Qed.

(** C10.  A registration that fails leaves the store as it was.  The hash
    of the password is computed before the email is looked up: when
    hashing raises, that exception is the failure, whatever the email;
    when hashing returns, the failure is the 400 "Email already registered"
    exactly when a user row has the email. *)
Theorem failed_registration_keeps_store `{Bcrypt} salt user db e db' :
  routes_users.create_user salt user db = (inl e, db') ->
  db' = db /\
  match routes_users.get_password_hash salt (UserCreate.password user) with
  | inl raised => e = raised
  | inr _ =>
      e = Http (HTTPException.mk 400 "Email already registered" ∅) <->
      UserCreate.email user ∈ User.email <$> users db
  end.
Proof.
  intros Hrun.
  destruct (routes_users.get_password_hash salt (UserCreate.password user))
    as [raised|h] eqn:Hhash.
  { rewrite (create_user_hash_raises salt user db raised Hhash) in Hrun.
    by injection Hrun as <- <-. }
  destruct (decide (UserCreate.email user ∈ User.email <$> users db))
    as [Hin|Hout].
  - rewrite (create_user_registered salt user db h Hhash Hin) in Hrun.
    injection Hrun as <- <-. done.
  - rewrite (create_user_novel salt user db h Hhash Hout) in Hrun.
    unfold crud_user.create_user in Hrun.
    destruct (crud_user.unique_violation _ _ _); [|done].
    injection Hrun as <- <-. split; [done|]. split; [done|].
    intros Hin. by destruct Hout.
Qed.

Lemma failed_registration_keeps_store_witness :
  @routes_users.create_user plain_bcrypt "salt"
    (UserCreate.mk "eve" "a@x.com" "pw") two_users_db
  = (inl (Http (HTTPException.mk 400 "Email already registered" ∅)),
     two_users_db) /\
  "a@x.com" ∈ User.email <$> users two_users_db.
Proof.
  destruct (@failed_registration_keeps_store plain_bcrypt "salt"
              (UserCreate.mk "eve" "a@x.com" "pw") two_users_db
              (Http (HTTPException.mk 400 "Email already registered" ∅))
              two_users_db) as (_ & Hiff); [compute_done|].
  split; [compute_done|]. by apply Hiff.
Defined.

(** ** Listing *)

Lemma get_books_by_user_nonneg db user_id skip limit :
  0 <= skip -> 0 <= limit ->
  crud_book.get_books_by_user db user_id skip limit
  = take (Z.to_nat limit) (drop (Z.to_nat skip) (books_of db user_id)).
Proof.
  intros _ Hlimit. unfold crud_book.get_books_by_user, sql_limit, sql_offset.
  case_decide; [lia|done].
Qed.

Lemma read_books_run `{Jose} settings token skip limit db u :
  routes_users.get_current_user settings token db = inr u ->
  routes_books.read_books settings token skip limit db
  = (inr (crud_book.get_books_by_user db (User.id u) skip limit), db).
Proof.
  intros Hu. unfold routes_books.read_books, routes_books.current_user.
  req_simpl. by rewrite Hu.
Qed.

(** A created book goes last among the books of its author. *)
Lemma create_book_books_of `{Jose} settings token body db u :
  routes_users.get_current_user settings token db = inr u ->
  exists b db',
    routes_books.create_book settings token body db = (inr b, db') /\
    users db' = users db /\
    Book.title b = BookCreate.title body /\
    books_of db' (User.id u) = books_of db (User.id u) ++ [b] /\
    forall other, other <> User.id u -> books_of db' other = books_of db other.
Proof.
  intros Hu. eexists _, _. split; [by apply create_book_run|].
  unfold books_of. simpl. repeat split.
  - rewrite filter_app, filter_cons_True by done. done.
  - intros other Hother. rewrite filter_app, filter_cons_False by done.
    simpl. by rewrite app_nil_r.
Qed.

(** C9. With a skip and a limit from 0 up to the 64-bit bound, the listing
    is the books of the user in storage order without the first [skip] of
    them and cut after [limit]: its i-th entry, for i below the limit, is entry
    [skip + i] of the user's books.  Storage order is creation order: a
    created book goes last.  So after a user without books creates three,
    the listing with skip 1 and limit 1 is the second of them alone. *)
Theorem listing_respects_skip_limit `{Jose} settings token db u :
  routes_users.get_current_user settings token db = inr u ->
  (forall skip limit, 0 <= skip < 2 ^ 63 -> 0 <= limit < 2 ^ 63 ->
     routes_books.read_books settings token skip limit db
     = (inr (take (Z.to_nat limit)
                  (drop (Z.to_nat skip) (books_of db (User.id u)))), db) /\
     forall i : nat, (i < Z.to_nat limit)%nat ->
       crud_book.get_books_by_user db (User.id u) skip limit !! i
       = books_of db (User.id u) !! (Z.to_nat skip + i)%nat) /\
  (forall body1 body2 body3,
     exists b1 b2 b3 db1 db2 db3,
       routes_books.create_book settings token body1 db = (inr b1, db1) /\
       routes_books.create_book settings token body2 db1 = (inr b2, db2) /\
       routes_books.create_book settings token body3 db2 = (inr b3, db3) /\
       Book.title b2 = BookCreate.title body2 /\
       books_of db3 (User.id u) = books_of db (User.id u) ++ [b1; b2; b3] /\
       (books_of db (User.id u) = [] ->
        routes_books.read_books settings token 1 1 db3 = (inr [b2], db3))).
Proof.
  intros Hu. split.
  - intros skip limit [Hskip _] [Hlimit _].
    rewrite (read_books_run settings token skip limit db u Hu).
    rewrite get_books_by_user_nonneg by done. split; [done|].
    intros i Hi. by rewrite lookup_take_lt, lookup_drop.
  - intros body1 body2 body3.
    destruct (create_book_books_of settings token body1 db u Hu)
      as (b1 & db1 & Hrun1 & Husers1 & _ & Hof1 & _).
    assert (routes_users.get_current_user settings token db1 = inr u) as Hu1
      by (by rewrite (get_current_user_users settings token db db1)).
    destruct (create_book_books_of settings token body2 db1 u Hu1)
      as (b2 & db2 & Hrun2 & Husers2 & Htitle2 & Hof2 & _).
    assert (routes_users.get_current_user settings token db2 = inr u) as Hu2
      by (by rewrite (get_current_user_users settings token db1 db2)).
    destruct (create_book_books_of settings token body3 db2 u Hu2)
      as (b3 & db3 & Hrun3 & Husers3 & _ & Hof3 & _).
    assert (routes_users.get_current_user settings token db3 = inr u) as Hu3
      by (by rewrite (get_current_user_users settings token db2 db3)).
    exists b1, b2, b3, db1, db2, db3. repeat (split; [done|]).
    assert (books_of db3 (User.id u)
            = books_of db (User.id u) ++ [b1; b2; b3]) as Hof.
    { rewrite Hof3, Hof2, Hof1, <- !app_assoc. done. }
    split; [done|]. intros Hnone.
    rewrite (read_books_run settings token 1 1 db3 u Hu3).
    rewrite get_books_by_user_nonneg by lia.
    by rewrite Hof, Hnone.
Qed.

Lemma listing_respects_skip_limit_witness :
  exists db3,
    @run plain_bcrypt plain_jose test_settings
      [POST_books (token_of "bob") (BookCreate.mk "Emma" to_read);
       POST_books (token_of "bob") (BookCreate.mk "Ulysses" to_read);
       POST_books (token_of "bob") (BookCreate.mk "Hamlet" read)]
      two_users_db = db3 /\
    @routes_books.read_books plain_jose test_settings (token_of "bob") 1 1 db3
    = (inr [Book.mk 3 "Ulysses" 2 to_read], db3).
Proof.
  destruct (@listing_respects_skip_limit plain_jose test_settings
              (token_of "bob") two_users_db bob_row) as [_ Hthree];
    [compute_done|].
  destruct (Hthree (BookCreate.mk "Emma" to_read)
                   (BookCreate.mk "Ulysses" to_read)
                   (BookCreate.mk "Hamlet" read))
    as (b1 & b2 & b3 & db1 & db2 & db3 & H1 & H2 & H3 & _ & _ & Hlist).
  vm_compute in H1. injection H1 as <- <-.
  vm_compute in H2. injection H2 as <- <-.
  vm_compute in H3. injection H3 as <- <-.
  eexists. split; [reflexivity|]. apply Hlist. reflexivity.
Defined.

(** ** The scenario of section 8, on the stand-ins *)

Example scenario_alice :
  let token := token_of "alice" in
  @serve plain_bcrypt plain_jose test_settings
    [POST_users "salt" (UserCreate.mk "alice" "a@x.com" "pw123");
     POST_token (LoginForm.mk "alice" "pw123");
     POST_books token (BookCreate.mk "Dune" to_read);
     PUT_book token 1 (BookUpdate.mk None read);
     DELETE_book token 1;
     GET_book token 1] empty_db
  = [inr (UserBody alice_row);
     inr (TokenBody (Token.mk token "bearer"));
     inr (BookBody (Book.mk 1 "Dune" 1 to_read));
     inr (BookBody (Book.mk 1 "Dune" 1 read));
     inr (BookBody (Book.mk 1 "Dune" 1 read));
     inl (Http (HTTPException.mk 404 "Book not found" ∅))].
Proof. vm_compute. reflexivity. Qed.

(** The update of [test_update_book]: a supplied title replaces the old. *)
Example scenario_update_title :
  crud_book.update_book_status (Book.mk 1 "Test Book to Update" 1 to_read)
    (BookUpdate.mk (Some "Updated Test Book") read)
    (mkDb [alice_row] [Book.mk 1 "Test Book to Update" 1 to_read])
  = (inr (Book.mk 1 "Updated Test Book" 1 read),
     mkDb [alice_row] [Book.mk 1 "Updated Test Book" 1 read]).
Proof. reflexivity. Qed.

(** A wrong password and an unknown user get the same 401 at login. *)
Example scenario_bad_login :
  @serve plain_bcrypt plain_jose test_settings
    [POST_token (LoginForm.mk "alice" "pw124");
     POST_token (LoginForm.mk "mallory" "pw123")] two_users_db
  = let e := inl (Http (HTTPException.mk 401 "Incorrect username or password"
                          {["WWW-Authenticate" := "Bearer"]})) in
    [e; e].
Proof. vm_compute. reflexivity. Qed.

(** * Further properties of the routes *)

(** ** Failing and reading requests *)

Section atomicity.
Context `{Bcrypt} `{Jose} (settings : Settings.t).

Lemma get_current_user_inl token db e :
  routes_users.get_current_user settings token db = inl e ->
  e = Http (HTTPException.mk 401 "Could not validate credentials"
              {["WWW-Authenticate" := "Bearer"]}).
Proof.
  unfold routes_users.get_current_user.
  destruct (jwt_decode _ _ _) as [payload|]; [|by intros [= <-]].
  destruct (payload !! "sub") as [username|]; [|by intros [= <-]].
  destruct (crud_user.get_user_by_username db username); [done|].
  by intros [= <-].
Qed.

(** X1. A request that is answered with an exception, whichever route and
    whichever exception, leaves both tables as they were: no route writes
    before the point where it can still raise. *)
Theorem failed_request_keeps_store (r : request) (db : Db) (e : error) :
  (handle settings r db).1 = inl e -> (handle settings r db).2 = db.
Proof.
  destruct r as [salt body|form|token body|token skip limit|token book_id
                |token book_id body|token book_id]; cbn [handle];
    rewrite req_fmap_run.
  - unfold routes_users.create_user. req_simpl.
    destruct (routes_users.get_password_hash _ _) as [e'|h]; [done|].
    req_simpl. destruct (crud_user.get_user_by_email _ _); [done|].
    unfold crud_user.create_user.
    by destruct (crud_user.unique_violation _ _ _).
  - unfold routes_users.login_for_access_token. req_simpl.
    destruct (crud_user.get_user_by_username _ _) as [u|]; [|done].
    req_simpl. by destruct (routes_users.verify_password _ _) as [e'|[]].
  - unfold routes_books.create_book, routes_books.current_user. req_simpl.
    by destruct (routes_users.get_current_user _ _ _).
  - unfold routes_books.read_books, routes_books.current_user. req_simpl.
    by destruct (routes_users.get_current_user _ _ _).
  - unfold routes_books.read_book, routes_books.current_user. req_simpl.
    destruct (routes_users.get_current_user _ _ _) as [e'|u]; [done|].
    req_simpl. by destruct (crud_book.get_book _ _ _).
  - unfold routes_books.update_book_status, routes_books.current_user.
    req_simpl.
    destruct (routes_users.get_current_user _ _ _) as [e'|u]; [done|].
    req_simpl. by destruct (crud_book.get_book _ _ _).
  - unfold routes_books.delete_book, routes_books.current_user. req_simpl.
    destruct (routes_users.get_current_user _ _ _) as [e'|u]; [done|].
    req_simpl. unfold crud_book.delete_book.
    by destruct (crud_book.get_book _ _ _).
Qed.

(** X2. The login route and the two GET routes never change the store,
    whether they succeed or fail. *)
Theorem read_only_request_keeps_store (r : request) (db : Db) :
  read_only r = true -> (handle settings r db).2 = db.
Proof.
  destruct r as [salt body|form|token body|token skip limit|token book_id
                |token book_id body|token book_id]; try done; intros _;
    cbn [handle]; rewrite req_fmap_run.
  - unfold routes_users.login_for_access_token. req_simpl.
    destruct (crud_user.get_user_by_username _ _) as [u|]; [|done].
    req_simpl. by destruct (routes_users.verify_password _ _) as [e'|[]].
  - unfold routes_books.read_books, routes_books.current_user. req_simpl.
    by destruct (routes_users.get_current_user _ _ _).
  - unfold routes_books.read_book, routes_books.current_user. req_simpl.
    destruct (routes_users.get_current_user _ _ _) as [e'|u]; [done|].
    req_simpl. by destruct (crud_book.get_book _ _ _).
Qed.

(** X3. Every route of [/books] answers a token that the resolver rejects
    with the resolver's 401 exception and does nothing else: the body of
    the route does not run and the store is as it was. *)
Theorem rejected_token_stops_request (r : request) (db : Db) token e :
  request_token r = Some token ->
  routes_users.get_current_user settings token db = inl e ->
  handle settings r db
  = (inl (Http (HTTPException.mk 401 "Could not validate credentials"
                  {["WWW-Authenticate" := "Bearer"]})), db).
Proof.
  intros Htok He. pose proof (get_current_user_inl token db e He) as ->.
  destruct r as [salt body|form|tk body|tk skip limit|tk book_id
                |tk book_id body|tk book_id]; try done;
    injection Htok as ->; cbn [handle]; rewrite req_fmap_run;
    unfold routes_books.create_book, routes_books.read_books,
      routes_books.read_book, routes_books.update_book_status,
      routes_books.delete_book, routes_books.current_user;
    req_simpl; by rewrite He.
Qed.

End atomicity.

Lemma failed_request_keeps_store_witness :
  (@handle plain_bcrypt plain_jose test_settings
     (DELETE_book (token_of "bob") 1) two_users_db).2 = two_users_db.
Proof.
  apply (@failed_request_keeps_store plain_bcrypt plain_jose test_settings
           (DELETE_book (token_of "bob") 1) two_users_db
           (Http (HTTPException.mk 404 "Book not found" ∅))).
  vm_compute. reflexivity.
Defined.

Lemma read_only_request_keeps_store_witness :
  (@handle plain_bcrypt plain_jose test_settings
     (GET_books (token_of "alice") 0 10) two_users_db).2 = two_users_db.
Proof.
  apply (@read_only_request_keeps_store plain_bcrypt plain_jose test_settings
           (GET_books (token_of "alice") 0 10) two_users_db).
  reflexivity.
Defined.

Lemma rejected_token_stops_request_witness :
  @handle plain_bcrypt plain_jose test_settings
    (POST_books "garbage" (BookCreate.mk "Emma" read)) two_users_db
  = (inl (Http (HTTPException.mk 401 "Could not validate credentials"
                  {["WWW-Authenticate" := "Bearer"]})), two_users_db).
Proof.
  apply (@rejected_token_stops_request plain_bcrypt plain_jose test_settings
           (POST_books "garbage" (BookCreate.mk "Emma" read)) two_users_db
           "garbage"
           (Http (HTTPException.mk 401 "Could not validate credentials"
                    {["WWW-Authenticate" := "Bearer"]}))).
  - reflexivity.
  - vm_compute. reflexivity.
Defined.

(** ** The owner's access to a book *)

Lemma read_book_run `{Jose} settings token book_id db u :
  routes_users.get_current_user settings token db = inr u ->
  routes_books.read_book settings token book_id db
  = match crud_book.get_book db book_id (User.id u) with
    | Some b => (inr b, db)
    | None => (inl (Http (HTTPException.mk 404 "Book not found" ∅)), db)
    end.
Proof.
  intros Hu. unfold routes_books.read_book, routes_books.current_user.
  req_simpl. rewrite Hu. req_simpl.
  by destruct (crud_book.get_book _ _ _).
Qed.

Lemma delete_book_route_run `{Jose} settings token book_id db u :
  routes_users.get_current_user settings token db = inr u ->
  routes_books.delete_book settings token book_id db
  = match crud_book.get_book db book_id (User.id u) with
    | Some b =>
        (inr b, mkDb (users db)
                     (filter (fun r => Book.id r <> Book.id b) (books db)))
    | None => (inl (Http (HTTPException.mk 404 "Book not found" ∅)), db)
    end.
Proof.
  intros Hu. unfold routes_books.delete_book, routes_books.current_user.
  req_simpl. rewrite Hu. req_simpl. unfold crud_book.delete_book.
  by destruct (crud_book.get_book _ _ _).
Qed.

Lemma update_book_status_route_run `{Jose} settings token book_id upd db u :
  routes_users.get_current_user settings token db = inr u ->
  routes_books.update_book_status settings token book_id upd db
  = match crud_book.get_book db book_id (User.id u) with
    | Some b => crud_book.update_book_status b upd db
    | None => (inl (Http (HTTPException.mk 404 "Book not found" ∅)), db)
    end.
Proof.
  intros Hu.
  unfold routes_books.update_book_status, routes_books.current_user.
  req_simpl. rewrite Hu. req_simpl.
  by destruct (crud_book.get_book _ _ _).
Qed.

Lemma update_book_status_run db book book_update :
  wf_db db -> book ∈ books db ->
  crud_book.update_book_status book book_update db
  = (inr (crud_book.assign book book_update),
     mkDb (users db)
          (crud_book.commit_assigned (crud_book.assign book book_update)
             (books db))).
Proof.
  intros Hwf Hb. unfold crud_book.update_book_status.
  pose proof (refresh_commit_assigned db book book_update Hwf Hb) as [_ Hr].
  cbn zeta in Hr. by rewrite Hr.
Qed.

(** X4. In a well-formed store the owner reaches the own book through each
    route of [/books/{id}]: GET returns the row, PUT returns the row with
    the assigned title and status, DELETE returns the row as it was and
    removes it. *)
Theorem owner_reaches_own_book `{Jose} settings token db u b book_update :
  wf_db db ->
  routes_users.get_current_user settings token db = inr u ->
  b ∈ books db -> Book.author_id b = User.id u ->
  routes_books.read_book settings token (Book.id b) db = (inr b, db) /\
  (exists db',
     routes_books.update_book_status settings token (Book.id b) book_update db
     = (inr (crud_book.assign b book_update), db') /\
     crud_book.assign b book_update ∈ books db') /\
  (exists db',
     routes_books.delete_book settings token (Book.id b) db = (inr b, db') /\
     b ∉ books db').
Proof.
  intros Hwf Hu Hb Hau.
  pose proof (get_book_owned db b Hwf Hb) as Hget. rewrite Hau in Hget.
  split; [|split].
  - by rewrite (read_book_run settings token _ db u Hu), Hget.
  - rewrite (update_book_status_route_run settings token _ _ db u Hu), Hget.
    rewrite update_book_status_run by done. eexists. split; [done|]. simpl.
    by apply (refresh_commit_assigned db b book_update).
  - rewrite (delete_book_route_run settings token _ db u Hu), Hget.
    eexists. split; [done|]. simpl. intros Hin.
    apply list_elem_of_filter in Hin as [Hne _]. done.
Qed.

Lemma owner_reaches_own_book_witness :
  @routes_books.read_book plain_jose test_settings (token_of "alice") 1
    two_users_db = (inr dune, two_users_db).
Proof.
  apply (@owner_reaches_own_book plain_jose test_settings (token_of "alice")
           two_users_db alice_row dune (BookUpdate.mk None read));
    compute_done.
Defined.

(** ** Deleting *)

Lemma filter_keeps_all {A} (P : A -> Prop) `{!forall x, Decision (P x)}
    (l : list A) :
  (forall x, x ∈ l -> P x) -> filter P l = l.
Proof.
  induction l as [|a l IH]; intros Hall; [done|].
  rewrite filter_cons_True by (apply Hall; left).
  f_equal. apply IH. intros x Hx. apply Hall. by right.
Qed.

Lemma filter_other_ids db b r :
  wf_db db -> b ∈ books db ->
  r ∈ filter (fun r => Book.id r <> Book.id b) (books db) <->
  r ∈ books db /\ r <> b.
Proof.
  intros (_ & _ & _ & Hids) Hb. rewrite list_elem_of_filter. split.
  - intros [Hne Hr]. split; [done|]. by intros ->.
  - intros [Hr Hne]. split; [|done]. intros Hid. apply Hne.
    by apply (NoDup_fmap_same Book.id (books db)).
Qed.

(** X5. [delete_book] on a book of the given owner returns that row, removes
    it and no other row, keeps the order of the rest and the users; after
    it no lookup by the book's id finds anything, for any user. *)
Theorem delete_book_removes_the_row db b :
  wf_db db -> b ∈ books db ->
  exists db',
    crud_book.delete_book (Book.id b) (Book.author_id b) db
    = (inr (Some b), db') /\
    users db' = users db /\
    (forall r, r ∈ books db' <-> r ∈ books db /\ r <> b) /\
    books db' `sublist_of` books db /\
    S (length (books db')) = length (books db) /\
    (forall user_id, crud_book.get_book db' (Book.id b) user_id = None) /\
    wf_db db'.
Proof.
  intros Hwf Hb. unfold crud_book.delete_book.
  rewrite (get_book_owned db b Hwf Hb). eexists. split; [done|]. simpl.
  split; [done|]. split; [intros r; by apply filter_other_ids|].
  split; [apply sublist_filter|]. split; [|split].
  - assert (forall l : list Book.t, NoDup (Book.id <$> l) -> b ∈ l ->
      S (length (filter (fun r => Book.id r <> Book.id b) l)) = length l)
      as Hlen.
    { induction l as [|a l IH]; intros Hnd Hin.
      - by apply elem_of_nil in Hin.
      - rewrite fmap_cons in Hnd. apply NoDup_cons in Hnd as [Ha Hnd].
        rewrite filter_cons. case_decide as Hid.
        + apply elem_of_cons in Hin as [->|Hin]; [done|].
          simpl. by rewrite IH.
        + simpl. f_equal.
          rewrite filter_keeps_all; [done|].
          intros r Hr Heq. apply Ha.
          rewrite Hid, <- Heq. by apply list_elem_of_fmap_2. }
    destruct Hwf as (_ & _ & _ & Hids). by apply Hlen.
  - intros user_id. apply get_book_absent. simpl. intros Hin.
    apply list_elem_of_fmap in Hin as (r & Hid & Hr).
    apply list_elem_of_filter in Hr as [Hne _]. done.
  - destruct Hwf as (? & ? & ? & Hids). repeat split; simpl; try done.
    eapply sublist_NoDup; [exact Hids|].
    apply fmap_sublist, sublist_filter.
Qed.

Lemma delete_book_removes_the_row_witness :
  crud_book.delete_book 1 1 two_users_db
  = (inr (Some dune), mkDb [alice_row; bob_row] []).
Proof.
  destruct (delete_book_removes_the_row two_users_db dune)
    as (db' & Hrun & _); try compute_done.
Defined.

(** X6. After the owner's DELETE of a book has succeeded, the same token
    gets 404 for GET, PUT and a second DELETE of that id, and the store
    stays as the first DELETE left it. *)
Theorem deleted_book_is_gone `{Jose} settings token db book_id b db'
    book_update :
  wf_db db ->
  routes_books.delete_book settings token book_id db = (inr b, db') ->
  let not_found := inl (Http (HTTPException.mk 404 "Book not found" ∅)) in
  routes_books.read_book settings token book_id db' = (not_found, db') /\
  routes_books.update_book_status settings token book_id book_update db'
  = (not_found, db') /\
  routes_books.delete_book settings token book_id db' = (not_found, db').
Proof.
  intros Hwf Hdel. cbn zeta.
  destruct (routes_users.get_current_user settings token db) as [e|u] eqn:Hu.
  { unfold routes_books.delete_book, routes_books.current_user in Hdel.
    revert Hdel. req_simpl. by rewrite Hu. }
  rewrite (delete_book_route_run settings token _ db u Hu) in Hdel.
  destruct (crud_book.get_book db book_id (User.id u)) as [bk|] eqn:Hget;
    [|done].
  injection Hdel as <- <-. apply get_book_Some in Hget as (Hbk & Hid & _).
  apply (routes_not_found settings token _ u).
  - by rewrite (get_current_user_users settings token db).
  - apply get_book_absent. simpl. intros Hin.
    apply list_elem_of_fmap in Hin as (r & Hrid & Hr).
    apply list_elem_of_filter in Hr as [Hne _]. congruence.
Qed.

Lemma deleted_book_is_gone_witness :
  @routes_books.read_book plain_jose test_settings (token_of "alice") 1
    (mkDb [alice_row; bob_row] [])
  = (inl (Http (HTTPException.mk 404 "Book not found" ∅)),
     mkDb [alice_row; bob_row] []).
Proof.
  apply (@deleted_book_is_gone plain_jose test_settings (token_of "alice")
           two_users_db 1 dune (mkDb [alice_row; bob_row] [])
           (BookUpdate.mk None read)); compute_done.
Defined.

(** ** Creating, then reading *)

(** X7. A book created through [POST /books/] is read back by its creator
    with GET on the returned id, in any store; the new id is not the id of
    an earlier row, and every lookup by another id answers as it did
    before the creation. *)
Theorem created_book_is_read_back `{Jose} settings token body db u :
  routes_users.get_current_user settings token db = inr u ->
  exists b db',
    routes_books.create_book settings token body db = (inr b, db') /\
    routes_books.read_book settings token (Book.id b) db' = (inr b, db') /\
    (Book.id b ∉ Book.id <$> books db) /\
    (forall book_id user_id, book_id <> Book.id b ->
       crud_book.get_book db' book_id user_id
       = crud_book.get_book db book_id user_id).
Proof.
  intros Hu. eexists _, _. split; [by apply create_book_run|].
  set (b := Book.mk _ _ _ _).
  assert (Book.id b ∉ Book.id <$> books db) as Hfresh
    by apply next_id_fresh.
  split; [|split; [done|]].
  - rewrite (read_book_run settings token _ _ u)
      by (by rewrite (get_current_user_users settings token db)).
    unfold crud_book.get_book. cbn [books]. rewrite filter_app.
    assert (filter (fun r => Book.id r = Book.id b /\
                             Book.author_id r = User.id u) (books db) = [])
      as ->.
    { apply head_None, head_filter_None. intros r Hr [Hid _]. apply Hfresh.
      rewrite <- Hid. by apply list_elem_of_fmap_2. }
    by rewrite filter_cons_True.
  - intros book_id user_id Hne. unfold crud_book.get_book. cbn [books].
    rewrite filter_app, filter_cons_False, filter_nil, app_nil_r; [done|].
    intros [Hid _]. by apply Hne.
Qed.

Lemma created_book_is_read_back_witness :
  exists b db',
    @routes_books.create_book plain_jose test_settings (token_of "bob")
      (BookCreate.mk "Emma" to_read) two_users_db = (inr b, db') /\
    @routes_books.read_book plain_jose test_settings (token_of "bob")
      (Book.id b) db' = (inr b, db').
Proof.
  destruct (@created_book_is_read_back plain_jose test_settings
              (token_of "bob") (BookCreate.mk "Emma" to_read) two_users_db
              bob_row) as (b & db' & Hc & Hr & _); [compute_done|].
  by exists b, db'.
Defined.

(** ** Updating twice *)

Lemma assign_idempotent book book_update :
  crud_book.assign (crud_book.assign book book_update) book_update
  = crud_book.assign book book_update.
Proof.
  unfold crud_book.assign. destruct book as [i t a s].
  destruct (BookUpdate.title book_update) as [new_title|]; [|done].
  by destruct (truthy (Some new_title)).
Qed.

Lemma commit_assigned_idempotent book rows :
  crud_book.commit_assigned book (crud_book.commit_assigned book rows)
  = crud_book.commit_assigned book rows.
Proof.
  unfold crud_book.commit_assigned. rewrite <- list_fmap_compose.
  apply list_fmap_ext. intros i r _. simpl.
  destruct (decide (Book.id r = Book.id book)) as [Hid|Hid]; simpl;
    [by rewrite decide_True|by rewrite decide_False].
Qed.

(** X8. PUT is idempotent: when an update of a book has succeeded in a
    well-formed store, the same request on the resulting store returns the
    same book and leaves that store as it is. *)
Theorem update_twice_is_update_once `{Jose} settings token book_id
    book_update db b' db' :
  wf_db db ->
  routes_books.update_book_status settings token book_id book_update db
  = (inr b', db') ->
  routes_books.update_book_status settings token book_id book_update db'
  = (inr b', db').
Proof.
  intros Hwf Hput.
  destruct (routes_users.get_current_user settings token db) as [e|u] eqn:Hu.
  { unfold routes_books.update_book_status, routes_books.current_user in Hput.
    revert Hput. req_simpl. by rewrite Hu. }
  rewrite (update_book_status_route_run settings token _ _ db u Hu) in Hput.
  destruct (crud_book.get_book db book_id (User.id u)) as [bk|] eqn:Hget;
    [|done].
  apply get_book_Some in Hget as (Hbk & Hid & Hau).
  rewrite update_book_status_run in Hput by done.
  injection Hput as <- <-.
  set (bk' := crud_book.assign bk book_update).
  set (db' := mkDb (users db) (crud_book.commit_assigned bk' (books db))).
  assert (wf_db db') as Hwf'.
  { destruct Hwf as (? & ? & ? & ?). repeat split; simpl; try done.
    by rewrite commit_assigned_ids. }
  assert (bk' ∈ books db') as Hin
    by apply (refresh_commit_assigned db bk book_update Hwf Hbk).
  assert (routes_users.get_current_user settings token db' = inr u) as Hu'
    by (by rewrite (get_current_user_users settings token db)).
  rewrite (update_book_status_route_run settings token _ _ db' u Hu').
  pose proof (get_book_owned db' bk' Hwf' Hin) as Hget'.
  subst bk'. rewrite assign_id, assign_author_id, Hid, Hau in Hget'.
  rewrite Hget'. rewrite update_book_status_run by done.
  rewrite assign_idempotent. subst db'. simpl.
  by rewrite commit_assigned_idempotent.
Qed.

Lemma update_twice_is_update_once_witness :
  @routes_books.update_book_status plain_jose test_settings
    (token_of "alice") 1 (BookUpdate.mk (Some "Dune II") read)
    (mkDb [alice_row; bob_row] [Book.mk 1 "Dune II" 1 read])
  = (inr (Book.mk 1 "Dune II" 1 read),
     mkDb [alice_row; bob_row] [Book.mk 1 "Dune II" 1 read]).
Proof.
  apply (@update_twice_is_update_once plain_jose test_settings
           (token_of "alice") 1 (BookUpdate.mk (Some "Dune II") read)
           two_users_db); compute_done.
Defined.

(** ** Pages of the listing *)

(** X9. Consecutive pages of [get_books_by_user] join without a gap and
    without a repeated row: for offsets and limits that are not negative
    and stay below the 64-bit bound, sums included, the page at [skip] of
    size [limit] followed by the page at [skip + limit] of size [limit'] is
    the page at [skip] of size [limit + limit']. *)
Theorem listing_pages_join db user_id skip limit limit' :
  0 <= skip -> 0 <= limit -> 0 <= limit' ->
  skip + limit < 2 ^ 63 -> limit + limit' < 2 ^ 63 ->
  crud_book.get_books_by_user db user_id skip limit ++
  crud_book.get_books_by_user db user_id (skip + limit) limit'
  = crud_book.get_books_by_user db user_id skip (limit + limit').
Proof.
  intros Hskip Hlimit Hlimit' _ _.
  rewrite !get_books_by_user_nonneg by lia.
  rewrite !Z2Nat.inj_add by lia.
  rewrite <- drop_drop. apply take_take_drop.
Qed.

Lemma listing_pages_join_witness :
  crud_book.get_books_by_user two_users_db 1 0 1 ++
  crud_book.get_books_by_user two_users_db 1 (0 + 1) 5
  = crud_book.get_books_by_user two_users_db 1 0 (1 + 5).
Proof. apply listing_pages_join; lia. Defined.

(** X10. For an offset and a limit from 0 up to the 64-bit bound, every
    row of the listing is a row of the table written by the given user, the
    listing is a sublist of the table, so in table order, and it has at
    most [limit] rows; with an offset at or past the number of the user's
    books it is empty. *)
Theorem listing_bounds db user_id skip limit :
  0 <= skip < 2 ^ 63 -> 0 <= limit < 2 ^ 63 ->
  (forall b, b ∈ crud_book.get_books_by_user db user_id skip limit ->
     b ∈ books db /\ Book.author_id b = user_id) /\
  crud_book.get_books_by_user db user_id skip limit `sublist_of` books db /\
  (length (crud_book.get_books_by_user db user_id skip limit)
   <= Z.to_nat limit)%nat /\
  (Z.of_nat (length (books_of db user_id)) <= skip ->
   crud_book.get_books_by_user db user_id skip limit = []).
Proof.
  intros [Hskip _] [Hlimit _].
  rewrite get_books_by_user_nonneg by done.
  assert (take (Z.to_nat limit) (drop (Z.to_nat skip) (books_of db user_id))
          `sublist_of` books_of db user_id) as Hsub.
  { etrans; [apply sublist_take|apply sublist_drop]. }
  split; [|split; [|split]].
  - intros b Hb. eapply elem_of_sublist in Hb; [|exact Hsub].
    unfold books_of in Hb. apply list_elem_of_filter in Hb. tauto.
  - etrans; [exact Hsub|apply sublist_filter].
  - rewrite length_take. lia.
  - intros Hpast. rewrite drop_ge by lia. apply take_nil.
Qed.

Lemma listing_bounds_witness :
  crud_book.get_books_by_user two_users_db 1 1 10 = [] /\
  (length (crud_book.get_books_by_user two_users_db 1 0 0) <= 0)%nat.
Proof.
  destruct (listing_bounds two_users_db 1 1 10) as (_ & _ & _ & Hpast);
    [lia..|].
  destruct (listing_bounds two_users_db 1 0 0) as (_ & _ & Hlen & _);
    [lia..|].
  split; [apply Hpast; compute_done|exact Hlen].
Defined.

(** ** Logging in *)

Lemma login_run `{Bcrypt} `{Jose} settings form db u :
  crud_user.get_user_by_username db (LoginForm.username form) = Some u ->
  routes_users.login_for_access_token settings form db
  = match routes_users.verify_password (LoginForm.password form)
            (User.hashed_password u) with
    | inr true =>
        (inr (Token.mk (routes_users.create_access_token settings
                          {["sub" := User.username u]}) "bearer"), db)
    | inr false =>
        (inl (Http (HTTPException.mk 401 "Incorrect username or password"
                      {["WWW-Authenticate" := "Bearer"]})), db)
    | inl e => (inl e, db)
    end.
Proof.
  intros Hu. unfold routes_users.login_for_access_token. req_simpl.
  rewrite Hu. req_simpl.
  by destruct (routes_users.verify_password _ _) as [e|[]].
Qed.

(** X11. Login in a well-formed store: it answers with a bearer token
    exactly when a user row has the username and the stored hash verifies
    the password, and the token is the one issued for that username.  An
    unknown username and a password that does not verify get one and the
    same 401 exception; an exception of the verification is passed on. *)
Theorem login_outcomes `{Bcrypt} `{Jose} settings form db :
  wf_db db ->
  let bad_credentials :=
    inl (Http (HTTPException.mk 401 "Incorrect username or password"
                 {["WWW-Authenticate" := "Bearer"]})) in
  (forall tok db',
     routes_users.login_for_access_token settings form db = (inr tok, db') <->
     db' = db /\
     exists u, u ∈ users db /\ User.username u = LoginForm.username form /\
       routes_users.verify_password (LoginForm.password form)
         (User.hashed_password u) = inr true /\
       tok = Token.mk (routes_users.create_access_token settings
                         {["sub" := User.username u]}) "bearer") /\
  ((forall u, u ∈ users db -> User.username u <> LoginForm.username form) ->
   routes_users.login_for_access_token settings form db
   = (bad_credentials, db)) /\
  (forall u, u ∈ users db -> User.username u = LoginForm.username form ->
     routes_users.verify_password (LoginForm.password form)
       (User.hashed_password u) = inr false ->
     routes_users.login_for_access_token settings form db
     = (bad_credentials, db)) /\
  (forall u e, u ∈ users db -> User.username u = LoginForm.username form ->
     routes_users.verify_password (LoginForm.password form)
       (User.hashed_password u) = inl e ->
     routes_users.login_for_access_token settings form db = (inl e, db)).
Proof.
  intros Hwf. cbn zeta.
  assert (forall u, u ∈ users db ->
            User.username u = LoginForm.username form ->
            crud_user.get_user_by_username db (LoginForm.username form)
            = Some u) as Hfind.
  { intros u Hu <-. by apply get_user_by_username_the. }
  split; [|split; [|split]].
  - intros tok db'. split.
    + intros Hlogin.
      destruct (crud_user.get_user_by_username db (LoginForm.username form))
        as [u|] eqn:Hu.
      * rewrite (login_run settings form db u Hu) in Hlogin.
        apply get_user_by_username_Some in Hu as [Hin Hname].
        destruct (routes_users.verify_password _ _) as [e|[]] eqn:Hv;
          [done| |done].
        injection Hlogin as <- <-. split; [done|]. by exists u.
      * revert Hlogin. unfold routes_users.login_for_access_token.
        req_simpl. by rewrite Hu.
    + intros (-> & u & Hin & Hname & Hv & ->).
      by rewrite (login_run settings form db u (Hfind u Hin Hname)), Hv.
  - intros Hnone. unfold routes_users.login_for_access_token. req_simpl.
    destruct (crud_user.get_user_by_username db _) as [u|] eqn:Hu; [|done].
    apply get_user_by_username_Some in Hu as [Hin Hname].
    by destruct (Hnone u Hin).
  - intros u Hin Hname Hv.
    by rewrite (login_run settings form db u (Hfind u Hin Hname)), Hv.
  - intros u e Hin Hname Hv.
    by rewrite (login_run settings form db u (Hfind u Hin Hname)), Hv.
Qed.

Lemma login_outcomes_witness :
  @routes_users.login_for_access_token plain_bcrypt plain_jose test_settings
    (LoginForm.mk "bob" "hunter2") two_users_db
  = (inr (Token.mk (token_of "bob") "bearer"), two_users_db) /\
  @routes_users.login_for_access_token plain_bcrypt plain_jose test_settings
    (LoginForm.mk "bob" "hunter3") two_users_db
  = (inl (Http (HTTPException.mk 401 "Incorrect username or password"
                  {["WWW-Authenticate" := "Bearer"]})), two_users_db).
Proof.
  destruct (@login_outcomes plain_bcrypt plain_jose test_settings
              (LoginForm.mk "bob" "hunter2") two_users_db)
    as (Hok & _); [compute_done|].
  destruct (@login_outcomes plain_bcrypt plain_jose test_settings
              (LoginForm.mk "bob" "hunter3") two_users_db)
    as (_ & _ & Hbad & _); [compute_done|].
  split.
  - apply Hok. split; [reflexivity|]. exists bob_row.
    repeat split; compute_done.
  - apply (Hbad bob_row); compute_done.
Defined.

(** ** Registering, then looking up *)

Lemma create_user_inr `{Bcrypt} salt user db u db' :
  routes_users.create_user salt user db = (inr u, db') ->
  (UserCreate.email user ∉ User.email <$> users db) /\
  (UserCreate.username user ∉ User.username <$> users db) /\
  (exists h,
     routes_users.get_password_hash salt (UserCreate.password user) = inr h /\
     u = User.mk (next_id (User.id <$> users db)) (UserCreate.username user)
           (UserCreate.email user) h) /\
  db' = mkDb (users db ++ [u]) (books db).
Proof.
  intros Hrun.
  destruct (routes_users.get_password_hash salt (UserCreate.password user))
    as [raised|h] eqn:Hhash.
  { by rewrite (create_user_hash_raises salt user db raised Hhash) in Hrun. }
  destruct (decide (UserCreate.email user ∈ User.email <$> users db))
    as [Hin|Hout].
  { by rewrite (create_user_registered salt user db h Hhash Hin) in Hrun. }
  rewrite (create_user_novel salt user db h Hhash Hout) in Hrun.
  unfold crud_user.create_user in Hrun.
  destruct (crud_user.unique_violation _ _ _) eqn:Hv; [done|].
  apply unique_violation_false in Hv as [Hname _].
  injection Hrun as <- <-. repeat split; try done. by exists h.
Qed.

Lemma lookup_after_append {A} (P : A -> Prop) `{!forall x, Decision (P x)}
    (l : list A) (x : A) :
  head (filter P (l ++ [x]))
  = match head (filter P l) with
    | Some y => Some y
    | None => if decide (P x) then Some x else None
    end.
Proof.
  rewrite filter_app. destruct (filter P l) as [|y k] eqn:E; simpl.
  - rewrite filter_cons, filter_nil. by case_decide.
  - done.
Qed.

Lemma get_user_by_username_absent db username :
  username ∉ User.username <$> users db ->
  crud_user.get_user_by_username db username = None.
Proof.
  intros Hout. apply head_filter_None. intros u Hu Hname. apply Hout.
  rewrite <- Hname. by apply list_elem_of_fmap_2.
Qed.

(** X12. After a successful registration the new row is what both lookups
    return, by the registered email and by the registered username; the
    lookups by any other email or username answer as before, and before the
    registration both lookups of the new email and username found
    nothing. *)
Theorem registered_user_is_found `{Bcrypt} salt user db u db' :
  routes_users.create_user salt user db = (inr u, db') ->
  crud_user.get_user_by_email db' (UserCreate.email user) = Some u /\
  crud_user.get_user_by_username db' (UserCreate.username user) = Some u /\
  crud_user.get_user_by_email db (UserCreate.email user) = None /\
  crud_user.get_user_by_username db (UserCreate.username user) = None /\
  (forall email, email <> UserCreate.email user ->
     crud_user.get_user_by_email db' email
     = crud_user.get_user_by_email db email) /\
  (forall username, username <> UserCreate.username user ->
     crud_user.get_user_by_username db' username
     = crud_user.get_user_by_username db username).
Proof.
  intros Hrun.
  apply create_user_inr in Hrun as (Hmail & Hname & (h & _ & ->) & ->).
  assert (crud_user.get_user_by_email db (UserCreate.email user) = None)
    as Hnomail.
  { destruct (crud_user.get_user_by_email db _) eqn:E; [|done].
    destruct Hmail. apply get_user_by_email_is_Some. by eexists. }
  pose proof (get_user_by_username_absent db _ Hname) as Hnoname.
  unfold crud_user.get_user_by_email, crud_user.get_user_by_username in *.
  cbn [users]. repeat split; try done.
  - rewrite lookup_after_append, Hnomail. by rewrite decide_True.
  - rewrite lookup_after_append, Hnoname. by rewrite decide_True.
  - intros email Hne. rewrite lookup_after_append.
    destruct (head (filter (fun u => User.email u = email) (users db)));
      [done|].
    by rewrite decide_False by (simpl; congruence).
  - intros username Hne. rewrite lookup_after_append.
    destruct (head (filter (fun u => User.username u = username)
                           (users db))); [done|].
    by rewrite decide_False by (simpl; congruence).
Qed.

Lemma registered_user_is_found_witness :
  crud_user.get_user_by_email
    (mkDb [alice_row; bob_row; User.mk 3 "carol" "c@x.com" "$2b$salt$pw"]
          [dune]) "c@x.com"
  = Some (User.mk 3 "carol" "c@x.com" "$2b$salt$pw").
Proof.
  apply (@registered_user_is_found plain_bcrypt "salt"
           (UserCreate.mk "carol" "c@x.com" "pw") two_users_db).
  vm_compute. reflexivity.
Defined.

(** ** Registering, logging in, resolving *)

(** X13. Registration, login and resolution compose.  Given a token codec
    that decodes what it encoded, and a hash of the password (what
    [get_password_hash] returned for it) that the context identifies and
    verifies against that password: registering a novel email and
    username, then logging in with the same username and password, gives a
    bearer token that the resolver takes to the registered row.  A password
    that the hash does not verify gets the 401 of the login route. *)
Theorem registered_user_logs_in `{Bcrypt} `{Jose} `{!JoseLaws}
    settings salt user db h :
  UserCreate.email user ∉ User.email <$> users db ->
  UserCreate.username user ∉ User.username <$> users db ->
  routes_users.get_password_hash salt (UserCreate.password user) = inr h ->
  bcrypt_identify h = true ->
  bcrypt_verify (UserCreate.password user) h = inr true ->
  exists u db1 tok,
    routes_users.create_user salt user db = (inr u, db1) /\
    routes_users.login_for_access_token settings
      (LoginForm.mk (UserCreate.username user) (UserCreate.password user)) db1
    = (inr tok, db1) /\
    Token.token_type tok = "bearer" /\
    routes_users.get_current_user settings (Token.access_token tok) db1
    = inr u /\
    (forall other,
       bcrypt_verify other h = inr false ->
       routes_users.login_for_access_token settings
         (LoginForm.mk (UserCreate.username user) other) db1
       = (inl (Http (HTTPException.mk 401 "Incorrect username or password"
                       {["WWW-Authenticate" := "Bearer"]})), db1)).
Proof.
  intros Hmail Hname Hhash Hident Hverify.
  set (u := User.mk (next_id (User.id <$> users db))
              (UserCreate.username user) (UserCreate.email user) h).
  set (db1 := mkDb (users db ++ [u]) (books db)).
  assert (routes_users.create_user salt user db = (inr u, db1)) as Hreg.
  { rewrite (create_user_novel salt user db h Hhash Hmail).
    unfold crud_user.create_user, crud_user.unique_violation.
    by rewrite !bool_decide_eq_false_2 by done. }
  assert (crud_user.get_user_by_username db1 (UserCreate.username user)
          = Some u) as Hfind.
  { unfold crud_user.get_user_by_username. cbn [users db1].
    rewrite lookup_after_append.
    pose proof (get_user_by_username_absent db _ Hname) as Hnone.
    unfold crud_user.get_user_by_username in Hnone. rewrite Hnone.
    by rewrite decide_True. }
  exists u, db1. eexists. split; [done|].
  split; [|split; [|split]].
  - rewrite (login_run settings
               (LoginForm.mk (UserCreate.username user)
                             (UserCreate.password user)) db1 u Hfind).
    cbn [LoginForm.password].
    rewrite verify_password_run. cbn [User.hashed_password u].
    rewrite Hident, Hverify. reflexivity.
  - done.
  - cbn [Token.access_token].
    unfold routes_users.get_current_user, routes_users.create_access_token.
    rewrite decode_encode_sub, lookup_singleton_eq. cbn [User.username u].
    by rewrite Hfind.
  - intros other Hother.
    rewrite (login_run settings
               (LoginForm.mk (UserCreate.username user) other) db1 u Hfind).
    cbn [LoginForm.password]. rewrite verify_password_run.
    cbn [User.hashed_password u]. by rewrite Hident, Hother.
Qed.

Lemma registered_user_logs_in_witness :
  exists u db1 tok,
    @routes_users.create_user plain_bcrypt "salt"
      (UserCreate.mk "carol" "c@x.com" "pw") two_users_db = (inr u, db1) /\
    @routes_users.login_for_access_token plain_bcrypt plain_jose
      test_settings (LoginForm.mk "carol" "pw") db1 = (inr tok, db1) /\
    @routes_users.get_current_user plain_jose test_settings
      (Token.access_token tok) db1 = inr u.
Proof.
  destruct (@registered_user_logs_in plain_bcrypt plain_jose plain_jose_laws
              test_settings "salt" (UserCreate.mk "carol" "c@x.com" "pw")
              two_users_db "$2b$salt$pw")
    as (u & db1 & tok & Hreg & Hlogin & _ & Hres & _); try compute_done.
  by exists u, db1, tok.
Defined.

(** ** Sequences of requests *)

Section sequences.
Context `{Bcrypt} `{Jose} (settings : Settings.t).

(** X14. The constraints of the tables and the existence of every book's
    author are invariants of the application: if they hold in a store,
    they hold after any sequence of requests, successful or not.  They hold
    in the empty store. *)
Theorem requests_keep_invariants (rs : list request) (db : Db) :
  wf_db db -> authors_exist db ->
  wf_db (run settings rs db) /\ authors_exist (run settings rs db).
Proof.
  revert db. induction rs as [|r rs IH]; intros db Hwf Hau; [done|].
  simpl. apply IH; [by apply handle_wf|by apply handle_authors_exist].
Qed.

Lemma run_users_prefix (rs : list request) (db : Db) :
  users db `prefix_of` users (run settings rs db).
Proof.
  revert db. induction rs as [|r rs IH]; intros db; [done|].
  simpl. etrans; [|apply IH].
  destruct (handle_users_step settings r db)
    as [->|(? & ? & ? & _ & _ & ->)]; [done|].
  by apply prefix_app_r.
Qed.

(** X15. No request removes or changes a user row: the users table before
    a sequence of requests is a prefix of the users table after it, and a
    lookup by username or by email that found a row finds the same row
    afterwards. *)
Theorem users_only_grow (rs : list request) (db : Db) :
  users db `prefix_of` users (run settings rs db) /\
  (forall username u,
     crud_user.get_user_by_username db username = Some u ->
     crud_user.get_user_by_username (run settings rs db) username = Some u) /\
  (forall email u,
     crud_user.get_user_by_email db email = Some u ->
     crud_user.get_user_by_email (run settings rs db) email = Some u).
Proof.
  pose proof (run_users_prefix rs db) as [k Hk].
  split; [by exists k|].
  unfold crud_user.get_user_by_username, crud_user.get_user_by_email.
  rewrite Hk. split; intros x u Hu; rewrite filter_app;
    by destruct (filter _ (users db)).
Qed.

(** X16. A token stays good: the routes set no expiry and remove no user,
    so a token that resolves to a user resolves to the same user after any
    sequence of requests. *)
Theorem resolved_token_stays_resolved (rs : list request) (db : Db) token u :
  routes_users.get_current_user settings token db = inr u ->
  routes_users.get_current_user settings token (run settings rs db) = inr u.
Proof.
  unfold routes_users.get_current_user.
  destruct (jwt_decode _ _ _) as [payload|]; [|done].
  destruct (payload !! "sub") as [username|]; [|done].
  unfold crud_user.get_user_by_username.
  destruct (run_users_prefix rs db) as [k ->].
  rewrite filter_app. by destruct (filter _ (users db)).
Qed.

Lemma books_of_commit_assigned book rows other :
  (forall r, r ∈ rows -> Book.id r = Book.id book ->
     Book.author_id r <> other) ->
  filter (fun b => Book.author_id b = other)
         (crud_book.commit_assigned book rows)
  = filter (fun b => Book.author_id b = other) rows.
Proof.
  unfold crud_book.commit_assigned.
  induction rows as [|a rows IH]; intros Hall; [done|].
  rewrite fmap_cons.
  assert (forall r, r ∈ rows -> Book.id r = Book.id book ->
            Book.author_id r <> other) as Hrest
    by (intros r Hr; apply Hall; by right).
  destruct (decide (Book.id a = Book.id book)) as [Hid|Hid].
  - rewrite !filter_cons_False; [by apply IH|..].
    + apply Hall; [left|done].
    + simpl. apply Hall; [left|done].
  - rewrite !filter_cons, IH by done. done.
Qed.

Lemma books_of_delete (bk : Book.t) (rows : list Book.t) (other : Z) :
  (forall r, r ∈ rows -> Book.id r = Book.id bk ->
     Book.author_id r <> other) ->
  filter (fun b => Book.author_id b = other)
         (filter (fun r => Book.id r <> Book.id bk) rows)
  = filter (fun b => Book.author_id b = other) rows.
Proof.
  induction rows as [|a rows IH]; intros Hall; [done|].
  assert (forall r, r ∈ rows -> Book.id r = Book.id bk ->
            Book.author_id r <> other) as Hrest
    by (intros r Hr; apply Hall; by right).
  destruct (decide (Book.id a = Book.id bk)) as [Hid|Hid].
  - rewrite (filter_cons_False _ a) by (by intros ?).
    rewrite (filter_cons_False _ a) by (apply Hall; [left|done]).
    by apply IH.
  - rewrite (filter_cons_True (fun r => Book.id r <> Book.id bk) a) by done.
    rewrite !(filter_cons (fun b => Book.author_id b = other)).
    by rewrite IH.
Qed.

(** X17. A request of [/books] made with a token that resolves to a user
    leaves the books of every other user as they were, row for row, in a
    well-formed store; the two routes of [/users] leave the whole books
    table as it was. *)
Theorem request_leaves_other_books (r : request) (db : Db) :
  wf_db db ->
  (forall token u other,
     request_token r = Some token ->
     routes_users.get_current_user settings token db = inr u ->
     other <> User.id u ->
     books_of (handle settings r db).2 other = books_of db other) /\
  (request_token r = None -> books (handle settings r db).2 = books db).
Proof.
  intros Hwf. pose proof Hwf as (_ & _ & _ & Hids).
  assert (forall u bk book_id other,
            crud_book.get_book db book_id (User.id u) = Some bk ->
            other <> User.id u ->
            forall x, x ∈ books db -> Book.id x = Book.id bk ->
                      Book.author_id x <> other) as Hown.
  { intros u bk book_id other Hget Hother x Hx Hid.
    apply get_book_Some in Hget as (Hbk & _ & Hau).
    rewrite (NoDup_fmap_same Book.id _ x bk Hids Hx Hbk Hid). congruence. }
  split.
  - intros token u other Htok Hu Hother. unfold books_of.
    destruct (handle_books_step settings r db)
      as [Hs| tk body u' Hr Hu' Hs | tk bid body u' bk Hr Hu' Hget Hs
         | tk bid u' bk Hr Hu' Hget Hs]; rewrite Hs; [done|..];
      subst r; injection Htok as ->; rewrite Hu in Hu';
      injection Hu' as <-.
    + rewrite filter_app, filter_cons_False by (simpl; congruence).
      by rewrite filter_nil, app_nil_r.
    + apply books_of_commit_assigned. rewrite assign_id. by eapply Hown.
    + apply books_of_delete. by eapply Hown.
  - intros Htok.
    destruct (handle_books_step settings r db)
      as [Hs| tk body u' Hr Hu' Hs | tk bid body u' bk Hr Hu' Hget Hs
         | tk bid u' bk Hr Hu' Hget Hs]; [done|subst r; done..].
Qed.

End sequences.

Lemma requests_keep_invariants_witness :
  wf_db (@run plain_bcrypt plain_jose test_settings
           [POST_books (token_of "bob") (BookCreate.mk "Emma" read);
            DELETE_book (token_of "alice") 1] two_users_db).
Proof.
  apply (@requests_keep_invariants plain_bcrypt plain_jose test_settings);
    [compute_done|].
  intros b Hb. apply list_elem_of_singleton in Hb as ->.
  exists alice_row. split; compute_done.
Defined.

Lemma request_leaves_other_books_witness :
  books_of (@handle plain_bcrypt plain_jose test_settings
              (DELETE_book (token_of "bob") 1) two_users_db).2 1
  = [dune].
Proof.
  destruct (@request_leaves_other_books plain_bcrypt plain_jose test_settings
              (DELETE_book (token_of "bob") 1) two_users_db)
    as [Hother _]; [compute_done|].
  rewrite (Hother (token_of "bob") bob_row 1); compute_done.
Defined.

Lemma resolved_token_stays_resolved_witness :
  @routes_users.get_current_user plain_jose test_settings (token_of "bob")
    (@run plain_bcrypt plain_jose test_settings
       [POST_users "salt" (UserCreate.mk "carol" "c@x.com" "pw");
        DELETE_book (token_of "alice") 1] two_users_db)
  = inr bob_row.
Proof.
  apply (@resolved_token_stays_resolved plain_bcrypt plain_jose test_settings).
  vm_compute. reflexivity.
Defined.

Lemma users_only_grow_witness :
  crud_user.get_user_by_email
    (@run plain_bcrypt plain_jose test_settings
       [POST_users "salt" (UserCreate.mk "carol" "c@x.com" "pw")]
       two_users_db) "b@x.com"
  = Some bob_row.
Proof.
  destruct (@users_only_grow plain_bcrypt plain_jose test_settings
              [POST_users "salt" (UserCreate.mk "carol" "c@x.com" "pw")]
              two_users_db) as (_ & _ & Hmail).
  apply Hmail. reflexivity.
Defined.
